(** * Central-Database: the document-store access and credential layer

    A shallow embedding of [core/models.py] and of the views of
    [core/api.py] that guard it, over an in-memory model of the driver
    calls the module makes (pymongo, bson, werkzeug).

    Modelling conventions.
    - The cluster behind the global [client] is a finite map from
      (database name, collection name) to the sequence of stored documents
      in natural order; a database exists exactly when it has a collection.
    - A stored document always carries an [_id]; it is kept apart from the
      remaining fields ([doc_id], [doc_fields]).
    - Every operation is a function from the store to an outcome (a value or
      a raised exception) and the store after the call.
    - Values the driver draws by itself (a new [ObjectId()], the salt of
      [generate_password_hash]) are explicit arguments of the operation.
    - The driver checks database and collection names when a handle is
      made ([client[db]], [db[coll]]) and encodes a document before it is
      sent; both are modelled, with their exceptions.
    - The keys of an update are taken as names of top-level fields;
      the server reads a key with dots as a path, so what the fields of a
      document are after an update is stated for payloads with
      [plain_keys] only.
    - Connectivity failures, limits on sizes and [print] output are
      outside the model. *)

From Stdlib Require Import ZArith String Ascii.
From Stdlib.Strings Require Import Byte.
From Stdlib Require DecimalString.
From stdpp Require Import base option list gmap strings fin_maps fin_sets.

Local Open Scope string_scope.
Local Open Scope Z_scope.

(** ** Python strings *)

(** [p in s], for strings *)
Fixpoint contains (p s : string) : bool :=
  String.prefix p s ||
  match s with
  | EmptyString => false
  | String _ s' => contains p s'
  end.

(** [s[-1]], when [s] is not empty *)
Fixpoint last_char (s : string) : option ascii :=
  match s with
  | EmptyString => None
  | String a EmptyString => Some a
  | String _ s' => last_char s'
  end.

(** ** bson.objectid.ObjectId

    [ObjectId(s)] on a [str] of 24 characters reads it with
    [bytes.fromhex], which takes hexadecimal digits in pairs (either case)
    and skips ASCII white space between the pairs, and raises [InvalidId]
    on any other string; so the identifier it makes has twelve bytes, or
    fewer when the string held white space.  [str(oid)] is the lower-case
    hexadecimal rendering of the bytes.  An [ObjectId()] the driver
    generates has twelve bytes. *)
Module ObjectId.

Definition hex_digit (n : N) : ascii :=
  match n with
  | 0 => "0" | 1 => "1" | 2 => "2" | 3 => "3" | 4 => "4" | 5 => "5"
  | 6 => "6" | 7 => "7" | 8 => "8" | 9 => "9" | 10 => "a" | 11 => "b"
  | 12 => "c" | 13 => "d" | 14 => "e" | _ => "f"
  end%N%char.

Definition hex_value (c : ascii) : option N :=
  let n := N_of_ascii c in
  if ((48 <=? n) && (n <=? 57))%N then Some (n - 48)%N
  else if ((97 <=? n) && (n <=? 102))%N then Some (n - 87)%N
  else if ((65 <=? n) && (n <=? 70))%N then Some (n - 55)%N
  else None.

(** ASCII white space: tab, line feed, vertical tab, form feed, carriage
    return and space *)
Definition is_space (c : ascii) : bool :=
  let n := N_of_ascii c in
  (((9 <=? n) && (n <=? 13)) || (n =? 32))%N.

(** [binascii.hexlify] *)
Fixpoint hexlify (bs : list byte) : string :=
  match bs with
  | [] => EmptyString
  | b :: bs' =>
      let n := Byte.to_N b in
      String (hex_digit (n / 16)) (String (hex_digit (n mod 16)) (hexlify bs'))
  end.

(** [bytes.fromhex] *)
Fixpoint fromhex (s : string) : option (list byte) :=
  match s with
  | EmptyString => Some []
  | String a rest =>
      if is_space a then fromhex rest
      else
        match rest with
        | EmptyString => None
        | String b rest' =>
            hi ← hex_value a;
            lo ← hex_value b;
            x ← Byte.of_N (16 * hi + lo);
            bs ← fromhex rest';
            Some (x :: bs)
        end
  end.

(** The bytes of an identifier ([oid.binary]). *)
Definition t : Type := list byte.

Definition binary (o : t) : list byte := o.

(** What [ObjectId()] generates. *)
Definition generated (o : t) : Prop := length o = 12%nat.

(** [str(oid)] *)
Definition to_string (o : t) : string := hexlify (binary o).

(** [ObjectId(s)], with [None] for [InvalidId] *)
Definition of_string (s : string) : option t :=
  if decide (String.length s = 24%nat) then fromhex s else None.

(** The ObjectId whose last byte is [b] and whose other bytes are zero. *)
Definition example (b : byte) : t := (replicate 11 x00 ++ [b])%list.

#[global] Instance byte_eq_dec : EqDecision byte := Byte.byte_eq_dec.

#[global] Instance eq_dec : EqDecision t.
Proof. unfold t. apply _. Defined.

End ObjectId.

(** ** pymongo: names of databases and collections

    [client[name]] and [db[name]] raise [InvalidName] on a name that does
    not pass these checks. *)

(** The characters a database name cannot contain: space, [.], [$], [/],
    backslash, NUL and the double quote. *)
Definition invalid_database_chars : list ascii :=
  ["032"; "046"; "036"; "047"; "092"; "000"; "034"]%char.

Definition valid_database_name (name : string) : bool :=
  String.eqb name "$external" ||
  (negb (String.eqb name EmptyString) &&
   forallb (λ c, negb (contains (String c EmptyString) name)) invalid_database_chars).

Definition valid_collection_name (name : string) : bool :=
  negb (String.eqb name EmptyString) &&
  negb (contains ".." name) &&
  (negb (contains "$" name) ||
   String.prefix "oplog.$main" name || String.prefix "$cmd" name) &&
  negb (String.prefix "." name) &&
  negb (bool_decide (last_char name = Some "."%char)) &&
  negb (contains (String "000"%char EmptyString) name).

(** Both names of a collection pass the checks. *)
Definition valid_names (db coll : string) : Prop :=
  valid_database_name db = true ∧ valid_collection_name coll = true.

(** ** Exceptions and outcomes *)

Inductive exn :=
  | InvalidName         (* pymongo.errors.InvalidName *)
  | EncodeError         (* bson: OverflowError or InvalidDocument *)
  | DuplicateKeyError   (* pymongo.errors.DuplicateKeyError *)
  | WriteError          (* pymongo.errors.WriteError *)
  | CollectionInvalid   (* pymongo.errors.CollectionInvalid *)
  | ValueError
  | ZeroDivisionError
  | KeyError
  | AttributeError.

Inductive outcome (A : Type) :=
  | Return (a : A)
  | Raise (e : exn).
Arguments Return {A} a.
Arguments Raise {A} e.

#[global] Instance exn_eq_dec : EqDecision exn.
Proof. solve_decision. Defined.

(** ** Values, documents and the store *)

(** Python's [str] builtin on the JSON-compatible values the core never
    looks into (numbers, booleans, null, arrays, embedded documents). *)
Class PyStr (A : Type) := py_str_json : A → string.

(** What the driver and the server accept of such a value:
    [bson_encodable] tells whether the BSON encoder takes it (an integer
    beyond eight bytes, for one, raises [OverflowError]), [bson_is_array]
    whether it is an array, which the server refuses as an [_id]. *)
Class Bson (A : Type) := {
  bson_encodable : A → bool;
  bson_is_array : A → bool
}.

(** [werkzeug.security]: the salted one-way hash and its verification.
    The first argument of [generate_password_hash] is the salt it draws.
    [check_password_hash] is [None] where it raises [ValueError] (a hash
    naming a method it does not know). *)
Class Werkzeug := {
  generate_password_hash : string → string → string;
  check_password_hash : string → string → option bool
}.

(** A concrete instance of the payload values, used by the examples:
    JSON scalars other than strings. *)
Inductive scalar := SNull | SBool (b : bool) | SInt (z : Z).

#[global] Instance scalar_eq_dec : EqDecision scalar.
Proof. solve_decision. Defined.

#[global] Instance scalar_str : PyStr scalar := λ j,
  match j with
  | SNull => "None"
  | SBool true => "True"
  | SBool false => "False"
  | SInt z => DecimalString.NilZero.string_of_int (Z.to_int z)
  end.

#[global] Instance scalar_bson : Bson scalar := {|
  bson_encodable j :=
    match j with
    | SInt z => (- 2 ^ 63 <=? z) && (z <? 2 ^ 63)
    | _ => true
    end;
  bson_is_array _ := false
|}.

(** An instance of the hashing interface for the examples only: the
    "hash" is [plain$salt$password]; verification splits the hash at its
    first two [$] as werkzeug does, answers false when there are not
    three parts, and raises on a method other than [plain]. *)
Definition example_hash (salt password : string) : string :=
  "plain$" +:+ salt +:+ "$" +:+ password.

Fixpoint split_dollar (s : string) : option (string * string) :=
  match s with
  | EmptyString => None
  | String a rest =>
      if Ascii.eqb a "$" then Some (EmptyString, rest)
      else
        match split_dollar rest with
        | Some (x, y) => Some (String a x, y)
        | None => None
        end
  end.

Definition example_check (pwhash password : string) : option bool :=
  match split_dollar pwhash with
  | None => Some false
  | Some (method, rest) =>
      match split_dollar rest with
      | None => Some false
      | Some (salt, hashval) =>
          if String.eqb method "plain" then Some (String.eqb hashval password)
          else None
      end
  end.

Definition example_werkzeug : Werkzeug := {|
  generate_password_hash := example_hash;
  check_password_hash := example_check
|}.

Section Model.
Context {json : Type} `{!EqDecision json, !PyStr json, !Bson json}.

Inductive value :=
  | VOid (o : ObjectId.t)
  | VStr (s : string)
  | VJson (j : json).

#[global] Instance value_eq_dec : EqDecision value.
Proof. solve_decision. Defined.

(** [str(v)] *)
Definition py_str (v : value) : string :=
  match v with
  | VOid o => ObjectId.to_string o
  | VStr s => s
  | VJson j => py_str_json j
  end.

(** A Python [dict] with string keys, as passed to and returned by the driver. *)
Abbreviation dict := (gmap string value).

(** A document as the server stores it. *)
Record document := Doc { doc_id : value; doc_fields : gmap string value }.

#[global] Instance document_eq_dec : EqDecision document.
Proof. solve_decision. Defined.

(** The [dict] the driver hands out for a stored document. *)
Definition to_dict (d : document) : gmap string value :=
  <["_id" := doc_id d]> (doc_fields d).

(** The cluster: the documents of every collection, in natural order. *)
Abbreviation store := (gmap (string * string) (list document)).

(** Operations read and write the store and may raise. *)
Definition M (A : Type) : Type := store → outcome A * store.

#[global] Instance M_ret : MRet M := λ A a st, (Return a, st).

#[global] Instance M_bind : MBind M := λ A B f m st,
  match m st with
  | (Return a, st') => f a st'
  | (Raise e, st') => (Raise e, st')
  end.

Definition raise {A} (e : exn) : M A := λ st, (Raise e, st).

(** [try: body except Exception: handler] *)
Definition try_except {A} (body : M A) (handler : exn → M A) : M A := λ st,
  match body st with
  | (Return a, st') => (Return a, st')
  | (Raise e, st') => handler e st'
  end.

(** *** The driver calls used by the core *)

(** [client[db_name]]: the handle of a database *)
Definition client_getitem (db_name : string) : M unit :=
  if valid_database_name db_name then mret () else raise InvalidName.

(** [db[coll_name]]: the handle of a collection *)
Definition database_getitem (coll_name : string) : M unit :=
  if valid_collection_name coll_name then mret () else raise InvalidName.

(** What the BSON encoder takes: a key without NUL, and a value it can
    encode; strings and ObjectIds always are. *)
Definition value_encodable (v : value) : bool :=
  match v with
  | VJson j => bson_encodable j
  | _ => true
  end.

Definition encodable (data : dict) : Prop :=
  map_Forall (λ k v, contains (String "000"%char EmptyString) k = false ∧
                     value_encodable v = true) data.

#[global] Instance encodable_dec data : Decision (encodable data).
Proof. unfold encodable. apply _. Defined.

(** What the server takes as an [_id]: anything but an array. *)
Definition id_allowed (v : value) : bool :=
  match v with
  | VJson j => negb (bson_is_array j)
  | _ => true
  end.

Definition coll_docs (st : store) (db coll : string)
  : list document :=
  default [] (st !! (db, coll)).

(** The filter [{key: v}]: equality on one top-level field (a stored
    array is not searched for [v]). *)
Definition matches (key : string) (v : value) (d : document) : Prop :=
  to_dict d !! key = Some v.

#[global] Instance matches_dec key v d : Decision (matches key v d).
Proof. unfold matches. apply _. Defined.

(** [coll.count_documents({})] *)
Definition count_documents (db coll : string) : M Z := λ st,
  (Return (Z.of_nat (length (coll_docs st db coll))), st).

(** [coll.find().skip(skip).limit(limit)], read to the end.  A negative
    skip raises [ValueError]; a limit of 0 is no limit and a negative limit
    stands for its absolute value. *)
Definition find_skip_limit (db coll : string) (skip limit : Z) : M (list dict) := λ st,
  if decide (skip < 0) then (Raise ValueError, st)
  else
    let rest := drop (Z.to_nat skip) (coll_docs st db coll) in
    let batch := if decide (limit = 0) then rest
                 else take (Z.to_nat (Z.abs limit)) rest in
    (Return (to_dict <$> batch), st).

(** [coll.find()], read to the end *)
Definition find_all (db coll : string) : M (list dict) := λ st,
  (Return (to_dict <$> coll_docs st db coll), st).

(** [coll.find_one({key: v})] *)
Definition find_one (db coll : string) (key : string) (v : value) : M (option dict) := λ st,
  (Return ((to_dict ∘ snd) <$> list_find (matches key v) (coll_docs st db coll)), st).

(** [coll.insert_one(data).inserted_id]: the document gets the new
    ObjectId [gen] unless it brings an [_id] of its own; a document the
    encoder does not take raises before anything is sent; the server
    refuses an array as [_id] ([WriteError]) and an [_id] already in the
    collection ([DuplicateKeyError]).  The collection (and so the
    database) is created when it does not exist. *)
Definition insert_one (gen : ObjectId.t) (db coll : string) (data : dict) : M value := λ st,
  let docs := coll_docs st db coll in
  let id := default (VOid gen) (data !! "_id") in
  if decide (encodable data) then
    if id_allowed id then
      if decide (Exists (λ d, doc_id d = id) docs) then (Raise DuplicateKeyError, st)
      else (Return id, <[(db, coll) := (docs ++ [Doc id (delete "_id" data)])%list]> st)
    else (Raise WriteError, st)
  else (Raise EncodeError, st).

(** The keys of a [$set] that name a top-level field: not empty, without
    a dot (a key with dots is a path into the document) and not starting
    with a dollar sign. *)
Definition plain_key (k : string) : bool :=
  negb (String.eqb k EmptyString) && negb (contains "." k) && negb (String.prefix "$" k).

Definition plain_keys (data : dict) : Prop :=
  map_Forall (λ k _, plain_key k = true) data.

#[global] Instance plain_keys_dec data : Decision (plain_keys data).
Proof. unfold plain_keys. apply _. Defined.

(** [coll.update_one({key: v}, {"$set": data}).modified_count]: an
    update the encoder does not take raises before anything is sent; the
    first matching document gets the fields of [data]; setting [_id] to
    another value than the stored one raises [WriteError] (the server's
    immutable-field error); a document that does not change is not counted,
    and neither is an empty [data].  The keys of [data] are taken as names
    of top-level fields, which is what the server does with [plain_keys];
    what the fields of a document are after an update is stated for such
    keys only. *)
Definition update_one (db coll : string) (key : string) (v : value) (data : dict) : M Z := λ st,
  let docs := coll_docs st db coll in
  if decide (encodable data) then
    match list_find (matches key v) docs with
    | None => (Return 0, st)
    | Some (i, d) =>
        if decide (is_Some (data !! "_id") ∧ data !! "_id" ≠ Some (doc_id d))
        then (Raise WriteError, st)
        else
          let d' := Doc (doc_id d) (delete "_id" data ∪ doc_fields d) in
          if decide (to_dict d' = to_dict d) then (Return 0, st)
          else (Return 1, <[(db, coll) := <[i := d']> docs]> st)
    end
  else (Raise EncodeError, st).

(** [coll.delete_one({key: v}).deleted_count] *)
Definition delete_one (db coll : string) (key : string) (v : value) : M Z := λ st,
  let docs := coll_docs st db coll in
  match list_find (matches key v) docs with
  | None => (Return 0, st)
  | Some (i, _) => (Return 1, <[(db, coll) := delete i docs]> st)
  end.

Definition database_names (st : store) : list string :=
  elements (set_map (D := gset string) fst (dom st)).

Definition collection_names (st : store) (db : string)
  : list string :=
  elements (set_map (D := gset string) snd (filter (λ k, k.1 = db) (dom st))).

(** [client.list_database_names()] *)
Definition list_database_names : M (list string) := λ st,
  (Return (database_names st), st).

(** [db.list_collection_names()] *)
Definition list_collection_names (db : string) : M (list string) := λ st,
  (Return (collection_names st db), st).

(** [db.create_collection(coll)]: a collection that exists raises
    [CollectionInvalid]; the handle of the new collection is then made,
    which checks its name. *)
Definition db_create_collection (db coll : string) : M unit := λ st,
  match st !! (db, coll) with
  | Some _ => (Raise CollectionInvalid, st)
  | None =>
      if valid_collection_name coll then (Return (), <[(db, coll) := []]> st)
      else (Raise InvalidName, st)
  end.

(** [db.drop_collection(coll)] *)
Definition drop_collection (db coll : string) : M unit := λ st,
  (Return (), delete (db, coll) st).

(** [client.drop_database(db)]: the driver makes the handle
    [client[db]], which checks the name, and drops through it. *)
Definition drop_database (db : string) : M unit :=
  _ ← client_getitem db;
  ((λ st, (Return (), filter (λ kv, kv.1.1 ≠ db) st)) : M unit).

(** What the core hands out for a stored document: its fields, with the
    identifier rendered as a string. *)
Definition public_dict (d : document) : gmap string value :=
  <["_id" := VStr (py_str (doc_id d))]> (doc_fields d).

(** *** Python helpers *)

(** [os.getenv(key, default)] *)
Definition getenv (env : gmap string string) (key default_value : string) : string :=
  default default_value (env !! key).

(** [d[key]] *)
Definition subscript (d : dict) (key : string) : M value :=
  match d !! key with
  | Some v => mret v
  | None => raise KeyError
  end.

(** [a // b] *)
Definition floordiv (a b : Z) : M Z :=
  if decide (b = 0) then raise ZeroDivisionError else mret (a / b).

(** Truth value of [Optional[str]] *)
Definition truthy (s : option string) : bool :=
  match s with
  | Some s => negb (bool_decide (s = EmptyString))
  | None => false
  end.

(** ** core/models.py *)

Definition SECURE_DB_NAME : string := "secure_auth".
Definition SECURE_USERS_COLL : string := "users".

Context `{!Werkzeug}.

(** [check_password_hash(user["password_hash"], password)]: the stored
    hash is split as a string, so any other value raises
    [AttributeError]; on a string the library answers or raises
    [ValueError]. *)
Definition check_password_hash_value (pwhash : value) (password : string) : M bool :=
  match pwhash with
  | VStr h =>
      match check_password_hash h password with
      | Some b => mret b
      | None => raise ValueError
      end
  | _ => raise AttributeError
  end.

Definition init_auth_collection (env : gmap string string) (salt : string)
    (gen : ObjectId.t) : M unit :=
  n ← count_documents SECURE_DB_NAME SECURE_USERS_COLL;
  if decide (n = 0) then
    let admin_username := getenv env "ADMIN_USERNAME" "admin" in
    let admin_password := getenv env "ADMIN_PASSWORD" "admin123" in
    _ ← insert_one gen SECURE_DB_NAME SECURE_USERS_COLL
          (<["username" := VStr admin_username]>
           (<["password_hash" := VStr (generate_password_hash salt admin_password)]>
            (<["role" := VStr "admin"]> ∅)));
    mret ()
  else mret ().

Definition verify_user (username password : string) : M bool :=
  user ← find_one SECURE_DB_NAME SECURE_USERS_COLL "username" (VStr username);
  match user with
  | None => mret false
  | Some u =>
      if decide (u = ∅) then mret false
      else
        h ← subscript u "password_hash";
        check_password_hash_value h password
  end.

Definition list_databases : M (list string) :=
  dbs ← list_database_names;
  mret (filter (λ d, d ∉ ["admin"; "local"; "config"]) dbs).

Definition get_collections (db_name : string) : M (list string) :=
  _ ← client_getitem db_name;
  list_collection_names db_name.

Definition create_collection (db_name coll_name : string) : M bool :=
  _ ← client_getitem db_name;
  existing ← list_collection_names db_name;
  if decide (coll_name ∈ existing) then mret false
  else
    _ ← db_create_collection db_name coll_name;
    mret true.

Definition delete_collection (db_name coll_name : string) : M bool :=
  _ ← client_getitem db_name;
  existing ← list_collection_names db_name;
  if decide (coll_name ∉ existing) then mret false
  else
    _ ← drop_collection db_name coll_name;
    mret true.

Definition delete_database (db_name : string) : M bool :=
  if decide (db_name ∈ ["admin"; "local"; "config"]) then mret false
  else if decide (db_name = SECURE_DB_NAME) then mret false
  else
    _ ← drop_database db_name;
    mret true.

(** [client[db_name][coll_name]] *)
Definition get_collection (db_name coll_name : string) : M unit :=
  _ ← client_getitem db_name;
  database_getitem coll_name.

(** The dict [paginate_documents] returns. *)
Record PageResult := {
  documents : list dict;
  page : Z;
  page_size : Z;
  total : Z;
  total_pages : Z
}.

(** [for d in cursor: d["_id"] = str(d["_id"]); docs.append(d)] *)
Fixpoint stringify_loop (cursor docs : list dict) : M (list dict) :=
  match cursor with
  | [] => mret docs
  | d :: cursor' =>
      v ← subscript d "_id";
      stringify_loop cursor' (docs ++ [<["_id" := VStr (py_str v)]> d])%list
  end.

Definition paginate_documents (db_name coll_name : string) (page page_size : Z)
  : M PageResult :=
  _ ← get_collection db_name coll_name;
  total ← count_documents db_name coll_name;
  let skip := (page - 1) * page_size in
  cursor ← find_skip_limit db_name coll_name skip page_size;
  docs ← stringify_loop cursor [];
  total_pages ← (if decide (total > 0) then floordiv (total + page_size - 1) page_size
                 else mret 1);
  mret {| documents := docs; page := page; page_size := page_size;
          total := total; total_pages := total_pages |}.

Definition get_document (db_name coll_name doc_id : string) : M (option dict) :=
  _ ← get_collection db_name coll_name;
  match ObjectId.of_string doc_id with
  | None => mret None
  | Some oid =>
      d ← find_one db_name coll_name "_id" (VOid oid);
      match d with
      | None => mret None
      | Some d =>
          if decide (d = ∅) then mret None
          else
            v ← subscript d "_id";
            mret (Some (<["_id" := VStr (py_str v)]> d))
      end
  end.

Definition insert_document (gen : ObjectId.t) (db_name coll_name : string) (data : dict)
  : M string :=
  _ ← get_collection db_name coll_name;
  inserted_id ← insert_one gen db_name coll_name data;
  mret (py_str inserted_id).

Definition update_document (db_name coll_name doc_id : string) (data : dict) : M bool :=
  _ ← get_collection db_name coll_name;
  match ObjectId.of_string doc_id with
  | None => mret false
  | Some oid =>
      modified_count ← update_one db_name coll_name "_id" (VOid oid) data;
      mret (bool_decide (modified_count > 0))
  end.

Definition delete_document (db_name coll_name doc_id : string) : M bool :=
  _ ← get_collection db_name coll_name;
  match ObjectId.of_string doc_id with
  | None => mret false
  | Some oid =>
      deleted_count ← delete_one db_name coll_name "_id" (VOid oid);
      mret (bool_decide (deleted_count > 0))
  end.

(** [for u in secure_users.find(): users.append({...})] *)
Fixpoint credentials_loop (cursor users : list dict) : M (list dict) :=
  match cursor with
  | [] => mret users
  | u :: cursor' =>
      id ← subscript u "_id";
      username ← subscript u "username";
      credentials_loop cursor'
        (users ++ [<["_id" := VStr (py_str id)]>
                   (<["username" := username]>
                    (<["role" := default (VStr EmptyString) (u !! "role")]> ∅))])%list
  end.

Definition list_credentials : M (list dict) :=
  cursor ← find_all SECURE_DB_NAME SECURE_USERS_COLL;
  credentials_loop cursor [].

Definition add_credential (salt : string) (gen : ObjectId.t)
    (username password role : string) : M string :=
  let doc := <["username" := VStr username]>
             (<["password_hash" := VStr (generate_password_hash salt password)]>
              (<["role" := VStr role]> ∅)) in
  inserted_id ← insert_one gen SECURE_DB_NAME SECURE_USERS_COLL doc;
  mret (py_str inserted_id).

Definition update_credential (salt : string) (user_id username : string)
    (password : option string) (role : string) : M bool :=
  match ObjectId.of_string user_id with
  | None => mret false
  | Some oid =>
      let update := <["username" := VStr username]> (<["role" := VStr role]> ∅) in
      let update :=
        if truthy password
        then <["password_hash" :=
                 VStr (generate_password_hash salt (default EmptyString password))]> update
        else update in
      modified_count ← update_one SECURE_DB_NAME SECURE_USERS_COLL "_id" (VOid oid) update;
      mret (bool_decide (modified_count > 0))
  end.

Definition delete_credential (user_id : string) : M bool :=
  match ObjectId.of_string user_id with
  | None => mret false
  | Some oid =>
      deleted_count ← delete_one SECURE_DB_NAME SECURE_USERS_COLL "_id" (VOid oid);
      mret (bool_decide (deleted_count > 0))
  end.

(** ** core/api.py: the two views that guard the core *)

(** What a view hands back: a redirect together with the message it
    flashed, or a JSON body with its status code. *)
Inductive response :=
  | Redirect (endpoint : string) (flashed : option (string * string))
  | Jsonify (status : Z) (key text : string).

(** [delete_collection_view], under [@login_required] *)
Definition delete_collection_view (session : gmap string string)
    (db_name coll_name : string) : M response :=
  if decide (session !! "username" = None) then mret (Redirect "login" None)
  else if decide (db_name = SECURE_DB_NAME ∧ coll_name = "users") then
    mret (Redirect "view_collections"
            (Some ("Cannot delete 'users' collection from secure_auth", "error")))
  else
    ok ← delete_collection db_name coll_name;
    if ok : bool then
      mret (Redirect "view_collections"
              (Some ("Collection '" +:+ coll_name +:+ "' deleted from '"
                       +:+ db_name +:+ "'", "success")))
    else
      mret (Redirect "view_collections"
              (Some ("Could not delete collection (maybe not found)", "error"))).

(** [api_update_document], under [@api_auth_required]; [payload] is the
    parsed request body. *)
Definition api_update_document (session : gmap string string)
    (db_name coll_name doc_id : string) (payload : dict) : M response :=
  if decide (session !! "username" = None) then mret (Jsonify 401 "error" "Unauthorized")
  else
    try_except
      (let payload := if decide (is_Some (payload !! "_id"))
                      then delete "_id" payload else payload in
       ok ← update_document db_name coll_name doc_id payload;
       if ok : bool then mret (Jsonify 200 "status" "updated")
       else mret (Jsonify 400 "error" "Not updated"))
      (λ _, mret (Jsonify 400 "error" "Invalid JSON")).

(** ** core/api.py: the decorators and further views *)

(** [@login_required]: without a user in the session the view is not run. *)
Definition login_required (view_func : M response) (session : gmap string string)
  : M response :=
  if decide (session !! "username" = None) then mret (Redirect "login" None)
  else view_func.

(** [@api_auth_required] *)
Definition api_auth_required (view_func : M response) (session : gmap string string)
  : M response :=
  if decide (session !! "username" = None) then mret (Jsonify 401 "error" "Unauthorized")
  else view_func.

Definition delete_database_view (session : gmap string string) (db_name : string)
  : M response :=
  login_required
    (if decide (db_name = SECURE_DB_NAME) then
       mret (Redirect "dashboard" (Some ("Cannot delete secure_auth database", "error")))
     else
       ok ← delete_database db_name;
       if ok : bool then
         mret (Redirect "dashboard"
                 (Some ("Database '" +:+ db_name +:+ "' deleted", "success")))
       else
         mret (Redirect "dashboard"
                 (Some ("Could not delete this database (maybe protected or not found)",
                        "error"))))
    session.

Definition delete_doc_view (session : gmap string string)
    (db_name coll_name doc_id : string) : M response :=
  login_required
    (ok ← delete_document db_name coll_name doc_id;
     if ok : bool then
       mret (Redirect "view_collection_data" (Some ("Document deleted", "success")))
     else
       mret (Redirect "view_collection_data" (Some ("Delete failed", "error"))))
    session.

(** [add_cred_view]; the three form fields may be missing. *)
Definition add_cred_view (session : gmap string string) (salt : string) (gen : ObjectId.t)
    (username password role : option string) : M response :=
  login_required
    (if negb (truthy username) || negb (truthy password) then
       mret (Redirect "credentials_page"
               (Some ("Username and password required", "error")))
     else
       _ ← add_credential salt gen (default EmptyString username)
             (default EmptyString password) (default "user" role);
       mret (Redirect "credentials_page" (Some ("Credential added", "success"))))
    session.

Definition delete_cred_view (session : gmap string string) (user_id : string)
  : M response :=
  login_required
    (ok ← delete_credential user_id;
     if ok : bool then
       mret (Redirect "credentials_page" (Some ("Credential deleted", "success")))
     else
       mret (Redirect "credentials_page" (Some ("Delete failed", "error"))))
    session.

(** [api_insert_document]; [payload] is the parsed request body. *)
Definition api_insert_document (session : gmap string string) (gen : ObjectId.t)
    (db_name coll_name : string) (payload : dict) : M response :=
  api_auth_required
    (try_except
       (new_id ← insert_document gen db_name coll_name payload;
        mret (Jsonify 201 "inserted_id" new_id))
       (λ _, mret (Jsonify 400 "error" "Invalid JSON")))
    session.

Definition api_delete_document (session : gmap string string)
    (db_name coll_name doc_id : string) : M response :=
  api_auth_required
    (ok ← delete_document db_name coll_name doc_id;
     if ok : bool then mret (Jsonify 200 "status" "deleted")
     else mret (Jsonify 400 "error" "Not deleted"))
    session.

(** ** Notions used in the statements *)

(** No collection holds two documents with the same [_id]. *)
Definition unique_ids (st : store) : Prop :=
  ∀ db coll, NoDup (doc_id <$> coll_docs st db coll).

(** The entry [list_credentials] makes of a stored credential. *)
Definition credential_entry (d : document) : gmap string value :=
  <["_id" := VStr (py_str (doc_id d))]>
    (<["username" := default (VStr EmptyString) (to_dict d !! "username")]>
     (<["role" := default (VStr EmptyString) (to_dict d !! "role")]> ∅)).

(** The documents a page request shows (none when it raises). *)
Definition page_documents (st : store) (db coll : string) (pg sz : Z) : list dict :=
  match (paginate_documents db coll pg sz st).1 with
  | Return r => documents r
  | Raise _ => []
  end.

End Model.

(** ** Example data

    Concrete stores over scalar payload values, used to run the operations. *)

Definition example_oid_string : string := "000000000000000000000001".

(** The credential [init_auth_collection] creates under the default
    configuration, with salt [s1] and ObjectId [...01]. *)
Definition example_admin : @document scalar :=
  Doc (VOid (ObjectId.example x01))
      (<["username" := VStr "admin"]>
       (<["password_hash" := VStr (example_hash "s1" "admin123")]>
        (<["role" := VStr "admin"]> ∅))).

Definition example_credentials : gmap (string * string) (list (@document scalar)) :=
  <[(SECURE_DB_NAME, SECURE_USERS_COLL) := [example_admin]]> ∅.

(** A collection [shop.items] of 25 documents [{"n": 0}], ..., [{"n": 24}]. *)
Definition example_item (b : byte) : @document scalar :=
  Doc (VOid (ObjectId.example b)) (<["n" := VJson (SInt (Z.of_N (Byte.to_N b)))]> ∅).

Definition example_items : list (@document scalar) :=
  example_item <$>
    [x00; x01; x02; x03; x04; x05; x06; x07; x08; x09; x0a; x0b; x0c;
     x0d; x0e; x0f; x10; x11; x12; x13; x14; x15; x16; x17; x18].

Definition example_shop : gmap (string * string) (list (@document scalar)) :=
  <[("shop", "items") := example_items]> ∅.

(** One stored document [{"_id": ObjectId(...01), "x": 1}]. *)
Definition example_single : gmap (string * string) (list (@document scalar)) :=
  <[("shop", "items") :=
      [Doc (VOid (ObjectId.example x01)) (<["x" := VJson (SInt 1)]> ∅)]]> ∅.

(** The payload [{"_id": "should-be-ignored", "x": 2}]. *)
Definition example_update : gmap string (@value scalar) :=
  <["_id" := VStr "should-be-ignored"]> (<["x" := VJson (SInt 2)]> ∅).

(** The payload [{"_id": "abc", "a": 1}]. *)
Definition example_insert_with_id : gmap string (@value scalar) :=
  <["_id" := VStr "abc"]> (<["a" := VJson (SInt 1)]> ∅).

(** A session after login, and the id of no stored document. *)
Definition example_session : gmap string string := <["username" := "admin"]> ∅.

Definition example_other_oid_string : string := "000000000000000000000002".

(** The payload [{"a": 1}]. *)
Definition example_insert : gmap string (@value scalar) :=
  <["a" := VJson (SInt 1)]> ∅.

(** A credential whose hash names a method the hashing library does not
    know. *)
Definition example_legacy_credentials : gmap (string * string) (list (@document scalar)) :=
  <[(SECURE_DB_NAME, SECURE_USERS_COLL) :=
      [Doc (VOid (ObjectId.example x01))
         (<["username" := VStr "old"]>
          (<["password_hash" := VStr "crypt$s1$secret"]> ∅))]]> ∅.

(** The payload [{"a": 2 ** 64}], an integer beyond the 8 bytes of BSON. *)
Definition example_overflow : gmap string (@value scalar) :=
  <["a" := VJson (SInt (2 ^ 64))]> ∅.


(** * Properties *)

(** ** ObjectId: parsing inverts rendering *)

Lemma ObjectId_byte_roundtrip (b : byte) :
  ObjectId.is_space (ObjectId.hex_digit (Byte.to_N b / 16)) = false ∧
  ObjectId.hex_value (ObjectId.hex_digit (Byte.to_N b / 16)) = Some (Byte.to_N b / 16)%N ∧
  ObjectId.hex_value (ObjectId.hex_digit (Byte.to_N b mod 16)) = Some (Byte.to_N b mod 16)%N ∧
  Byte.of_N (16 * (Byte.to_N b / 16) + Byte.to_N b mod 16) = Some b.
Proof. destruct b; vm_compute; auto. Qed.

Lemma ObjectId_fromhex_hexlify (bs : list byte) :
  ObjectId.fromhex (ObjectId.hexlify bs) = Some bs.
Proof.
  induction bs as [|b bs IH]; [reflexivity|].
  cbn [ObjectId.hexlify ObjectId.fromhex].
  destruct (ObjectId_byte_roundtrip b) as (-> & -> & -> & Hb).
  cbn [mbind option_bind]. rewrite Hb. cbn [mbind option_bind].
  rewrite IH. reflexivity.
Qed.

Lemma ObjectId_length_hexlify (bs : list byte) :
  String.length (ObjectId.hexlify bs) = (2 * length bs)%nat.
Proof.
  induction bs as [|b bs IH]; cbn [ObjectId.hexlify String.length length]; lia.
Qed.

Lemma ObjectId_of_string_to_string (o : ObjectId.t) :
  ObjectId.generated o → ObjectId.of_string (ObjectId.to_string o) = Some o.
Proof.
  unfold ObjectId.generated, ObjectId.of_string, ObjectId.to_string, ObjectId.binary.
  intros Hlen. rewrite ObjectId_length_hexlify, ObjectId_fromhex_hexlify.
  by rewrite decide_True by lia.
Qed.

Lemma ObjectId_example_generated (b : byte) : ObjectId.generated (ObjectId.example b).
Proof. reflexivity. Qed.

(** Unfolds the sequencing of store operations. *)
Ltac run := unfold mbind, M_bind, mret, M_ret, raise, try_except; cbn beta iota.

Section Properties.
Context {json : Type} `{!EqDecision json, !PyStr json, !Bson json, !Werkzeug}.

Abbreviation store := (gmap (string * string) (list (@document json))).
Abbreviation dict := (gmap string (@value json)).

(** ** Handles *)

Lemma client_getitem_valid (st : store) (db : string) :
  valid_database_name db = true → client_getitem db st = (Return (), st).
Proof. intros Hdb. unfold client_getitem. by rewrite Hdb. Qed.

Lemma client_getitem_invalid (st : store) (db : string) :
  valid_database_name db = false → client_getitem db st = (Raise InvalidName, st).
Proof. intros Hdb. unfold client_getitem. by rewrite Hdb. Qed.

Lemma get_collection_valid (st : store) (db coll : string) :
  valid_names db coll → get_collection db coll st = (Return (), st).
Proof.
  intros [Hdb Hcoll]. unfold get_collection, client_getitem, database_getitem.
  by rewrite Hdb, Hcoll.
Qed.

Lemma get_collection_invalid (st : store) (db coll : string) :
  ¬ valid_names db coll → get_collection db coll st = (Raise InvalidName, st).
Proof.
  intros Hbad. unfold get_collection, client_getitem, database_getitem.
  destruct (valid_database_name db) eqn:Hdb; [|done].
  destruct (valid_collection_name coll) eqn:Hcoll; [|done].
  by destruct Hbad.
Qed.

Lemma get_collection_store (st : store) (db coll : string) :
  (get_collection db coll st).2 = st.
Proof.
  unfold get_collection, client_getitem, database_getitem.
  destruct (valid_database_name db); [|done].
  by destruct (valid_collection_name coll).
Qed.

Lemma get_collection_cases (st : store) (db coll : string) :
  (valid_names db coll ∧ get_collection db coll st = (Return (), st)) ∨
  (¬ valid_names db coll ∧ get_collection db coll st = (Raise InvalidName, st)).
Proof.
  unfold valid_names.
  destruct (valid_database_name db) eqn:Hdb, (valid_collection_name coll) eqn:Hcoll.
  - left. split; [done|]. by apply get_collection_valid.
  - right. split; [by intros [_ ?]|]. apply get_collection_invalid.
    unfold valid_names. rewrite Hcoll. by intros [_ ?].
  - right. split; [by intros [? _]|]. apply get_collection_invalid.
    unfold valid_names. rewrite Hdb. by intros [? _].
  - right. split; [by intros [? _]|]. apply get_collection_invalid.
    unfold valid_names. rewrite Hdb. by intros [? _].
Qed.

Lemma get_collection_bind {A} (k : unit → M A) (st : store) (db coll : string) :
  (valid_names db coll ∧ (get_collection db coll ≫= k) st = k () st) ∨
  (¬ valid_names db coll ∧ (get_collection db coll ≫= k) st = (Raise InvalidName, st)).
Proof.
  run. destruct (get_collection_cases st db coll) as [[Hv ->]|[Hv ->]]; [by left|by right].
Qed.

Lemma client_getitem_bind {A} (k : unit → M A) (st : store) (db : string) :
  (valid_database_name db = true ∧ (client_getitem db ≫= k) st = k () st) ∨
  (valid_database_name db = false ∧ (client_getitem db ≫= k) st = (Raise InvalidName, st)).
Proof.
  run. unfold client_getitem. destruct (valid_database_name db); [by left|by right].
Qed.

Lemma secure_names_valid : valid_names SECURE_DB_NAME SECURE_USERS_COLL.
Proof. split; reflexivity. Qed.

(** ** The catalog *)

Lemma elem_of_collection_names (st : store) (db coll : string) :
  coll ∈ collection_names st db ↔ is_Some (st !! (db, coll)).
Proof.
  unfold collection_names. rewrite elem_of_elements, elem_of_map. split.
  - intros [[d c] [-> [Hd Hin]%elem_of_filter]]. cbn in *. subst d.
    by apply elem_of_dom.
  - intros Hsome. exists (db, coll). split; [done|].
    apply elem_of_filter. split; [done|]. by apply elem_of_dom.
Qed.

Lemma NoDup_collection_names (st : store) (db : string) :
  NoDup (collection_names st db).
Proof. apply NoDup_elements. Qed.

Lemma elem_of_database_names (st : store) (db : string) :
  db ∈ database_names st ↔ ∃ coll, is_Some (st !! (db, coll)).
Proof.
  unfold database_names. rewrite elem_of_elements, elem_of_map. split.
  - intros [[d c] [-> Hin]]. exists c. by apply elem_of_dom.
  - intros [c Hsome]. exists (db, c). split; [done|]. by apply elem_of_dom.
Qed.

Lemma delete_collection_absent (st : store) (db coll : string) :
  valid_database_name db = true →
  st !! (db, coll) = None →
  delete_collection db coll st = (Return false, st).
Proof.
  intros Hdb Hnone. unfold delete_collection, list_collection_names. run.
  rewrite client_getitem_valid by done.
  destruct (decide (coll ∉ collection_names st db)) as [_|Hin]; [done|].
  exfalso. apply Hin. rewrite elem_of_collection_names, Hnone.
  by intros [? ?].
Qed.

Lemma delete_collection_present (st : store) (db coll : string) :
  valid_database_name db = true →
  is_Some (st !! (db, coll)) →
  delete_collection db coll st = (Return true, delete (db, coll) st).
Proof.
  intros Hdb Hsome. unfold delete_collection, list_collection_names, drop_collection. run.
  rewrite client_getitem_valid by done.
  destruct (decide (coll ∉ collection_names st db)) as [Hnin|_]; [|done].
  exfalso. apply Hnin. by apply elem_of_collection_names.
Qed.

Lemma create_collection_absent (st : store) (db coll : string) :
  valid_names db coll →
  st !! (db, coll) = None →
  create_collection db coll st = (Return true, <[(db, coll) := []]> st).
Proof.
  intros [Hdb Hcoll] Hnone.
  unfold create_collection, list_collection_names, db_create_collection. run.
  rewrite client_getitem_valid by done.
  destruct (decide (coll ∈ collection_names st db)) as [Hin|_].
  - apply elem_of_collection_names in Hin. rewrite Hnone in Hin. by destruct Hin.
  - by rewrite Hnone, Hcoll.
Qed.

Lemma create_collection_present (st : store) (db coll : string) :
  valid_database_name db = true →
  is_Some (st !! (db, coll)) →
  create_collection db coll st = (Return false, st).
Proof.
  intros Hdb Hsome. unfold create_collection, list_collection_names. run.
  rewrite client_getitem_valid by done.
  destruct (decide (coll ∈ collection_names st db)) as [_|Hnin]; [done|].
  exfalso. apply Hnin. by apply elem_of_collection_names.
Qed.

Lemma create_collection_store (st : store) (db coll : string) :
  (create_collection db coll st).2 = st ∨
  (create_collection db coll st).2 = <[(db, coll) := []]> st.
Proof.
  destruct (valid_database_name db) eqn:Hdb.
  - destruct (st !! (db, coll)) as [docs|] eqn:Hst.
    + left. by rewrite create_collection_present by (done || by rewrite Hst).
    + destruct (valid_collection_name coll) eqn:Hcoll.
      * right. by rewrite create_collection_absent.
      * left. unfold create_collection, list_collection_names, db_create_collection. run.
        rewrite client_getitem_valid by done.
        destruct (decide _); [done|]. cbn. by rewrite Hst, Hcoll.
  - left. unfold create_collection. run. by rewrite client_getitem_invalid.
Qed.

Lemma delete_collection_store (st : store) (db coll : string) :
  (delete_collection db coll st).2 = st ∨
  (delete_collection db coll st).2 = delete (db, coll) st.
Proof.
  destruct (valid_database_name db) eqn:Hdb.
  - destruct (st !! (db, coll)) as [docs|] eqn:Hst.
    + right. by rewrite delete_collection_present by (done || by rewrite Hst).
    + left. by rewrite delete_collection_absent.
  - left. unfold delete_collection. run. by rewrite client_getitem_invalid.
Qed.

Lemma delete_database_store (st : store) (db : string) :
  (delete_database db st).2 = st ∨
  (delete_database db st).2 = filter (λ kv, kv.1.1 ≠ db) st.
Proof.
  unfold delete_database, drop_database.
  destruct (decide _); [by left|]. destruct (decide _); [by left|].
  run. unfold client_getitem. destruct (valid_database_name db); [by right|by left].
Qed.

Lemma filter_eq_not_elem_of {A} `{!EqDecision A} (l : list A) (x : A) :
  x ∉ l → filter (λ y, y = x) l = [].
Proof.
  induction l as [|y l IH]; intros Hnin; [done|].
  apply not_elem_of_cons in Hnin as [Hne Hnin].
  rewrite filter_cons_False by congruence. by apply IH.
Qed.

Lemma NoDup_count_one {A} `{!EqDecision A} (l : list A) (x : A) :
  NoDup l → x ∈ l → length (filter (λ y, y = x) l) = 1%nat.
Proof.
  induction 1 as [|y l Hy Hnd IH]; intros Hin.
  - by apply elem_of_nil in Hin.
  - destruct (decide (y = x)) as [->|Hne].
    + rewrite filter_cons_True by done.
      by rewrite filter_eq_not_elem_of.
    + rewrite filter_cons_False by done.
      apply IH. apply elem_of_cons in Hin as [->|Hin]; done.
Qed.

(** ** C1: deleting secure_auth.users *)

(** C1 (as the code has it): a request to delete the [users] collection of
    the secure database is refused by the routing layer's guard
    ([delete_collection_view]), which answers with an error notice and
    leaves the store as it is; the core operation [delete_collection] has
    no such guard: called directly it returns false only when the collection
    does not exist, and drops an existing one and returns true. *)
Theorem delete_secure_users_guarded_by_view (st : store) (session : gmap string string) :
  (delete_collection_view session SECURE_DB_NAME "users" st).2 = st ∧
  (is_Some (session !! "username") →
     delete_collection_view session SECURE_DB_NAME "users" st =
       (Return (Redirect "view_collections"
                  (Some ("Cannot delete 'users' collection from secure_auth", "error"))),
        st)) ∧
  (st !! (SECURE_DB_NAME, "users") = None →
     delete_collection SECURE_DB_NAME "users" st = (Return false, st)) ∧
  (is_Some (st !! (SECURE_DB_NAME, "users")) →
     delete_collection SECURE_DB_NAME "users" st =
       (Return true, delete (SECURE_DB_NAME, "users") st)).
Proof.
  split_and!.
  - unfold delete_collection_view. run.
    destruct (decide (session !! "username" = None)); [done|].
    destruct (decide (SECURE_DB_NAME = SECURE_DB_NAME ∧ "users" = "users")) as [_|Hn];
      [done|]. by destruct Hn.
  - intros [u Hu]. unfold delete_collection_view. run.
    destruct (decide (session !! "username" = None)) as [Hnone|_]; [congruence|].
    destruct (decide (SECURE_DB_NAME = SECURE_DB_NAME ∧ "users" = "users")) as [_|Hn];
      [done|]. by destruct Hn.
  - by apply delete_collection_absent.
  - by apply delete_collection_present.
Qed.

(** ** C3: deleting a database *)

(** C3 (as the code has it): for [admin], [local], [config] and the
    secure database name [delete_database] returns false and the store is
    untouched; for every other name that the driver accepts as the name
    of a database it returns true and the database is gone afterwards
    (none of its collections is left, it is no longer listed), the other
    databases being as before; for every other name that the driver
    rejects it raises [InvalidName] and the store is untouched. *)
Theorem delete_database_protected_or_dropped (st : store) (db : string) :
  (db ∈ ["admin"; "local"; "config"] ∨ db = SECURE_DB_NAME →
     delete_database db st = (Return false, st)) ∧
  (db ∉ ["admin"; "local"; "config"] → db ≠ SECURE_DB_NAME →
   valid_database_name db = true →
     ∃ st', delete_database db st = (Return true, st') ∧
            (∀ coll, st' !! (db, coll) = None) ∧
            (db ∉ database_names st') ∧
            (∀ db' coll, db' ≠ db → st' !! (db', coll) = st !! (db', coll))) ∧
  (db ∉ ["admin"; "local"; "config"] → db ≠ SECURE_DB_NAME →
   valid_database_name db = false →
     delete_database db st = (Raise InvalidName, st)).
Proof.
  split_and!.
  - intros Hprot. unfold delete_database. run.
    destruct (decide (db ∈ ["admin"; "local"; "config"])) as [_|Hnin]; [done|].
    destruct Hprot as [Hin| ->]; [done|].
    by destruct (decide (SECURE_DB_NAME = SECURE_DB_NAME)).
  - intros Hnin Hne Hvalid. unfold delete_database, drop_database. run.
    destruct (decide (db ∈ ["admin"; "local"; "config"])) as [Hin|_]; [done|].
    destruct (decide (db = SECURE_DB_NAME)) as [Heq|_]; [done|].
    rewrite client_getitem_valid by done.
    eexists. split; [reflexivity|].
    assert (Hgone : ∀ coll,
      (filter (λ kv : (string * string) * list document, kv.1.1 ≠ db) st) !! (db, coll) = None).
    { intros coll. apply map_lookup_filter_None. right. intros docs _ Hk. by apply Hk. }
    split_and!.
    + exact Hgone.
    + rewrite elem_of_database_names. intros [coll Hsome].
      rewrite Hgone in Hsome. by destruct Hsome.
    + intros db' coll Hdb'.
      destruct (st !! (db', coll)) as [docs|] eqn:Hst.
      * apply map_lookup_filter_Some. done.
      * apply map_lookup_filter_None. by left.
  - intros Hnin Hne Hinvalid. unfold delete_database, drop_database. run.
    destruct (decide (db ∈ ["admin"; "local"; "config"])) as [Hin|_]; [done|].
    destruct (decide (db = SECURE_DB_NAME)) as [Heq|_]; [done|].
    by rewrite client_getitem_invalid.
Qed.

(** ** C5: malformed identifiers *)

(** C5 (as the code has it): when the caller's id string does not parse
    as an ObjectId, [update_credential] and [delete_credential] return
    false, and so do [update_document] and [delete_document], and
    [get_document] returns [None], on a database and a collection whose
    names the driver accepts; none of them raises then and the store is
    unchanged.  The three document operations make the collection handle
    before they look at the id: on a name the driver rejects they raise
    [InvalidName], the store being unchanged. *)
Theorem malformed_id_is_not_found (id : string) (st : store)
    (db coll : string) (data : dict) (salt username role : string)
    (password : option string) :
  ObjectId.of_string id = None →
  (valid_names db coll →
     get_document db coll id st = (Return None, st) ∧
     update_document db coll id data st = (Return false, st) ∧
     delete_document db coll id st = (Return false, st)) ∧
  (¬ valid_names db coll →
     get_document db coll id st = (Raise InvalidName, st) ∧
     update_document db coll id data st = (Raise InvalidName, st) ∧
     delete_document db coll id st = (Raise InvalidName, st)) ∧
  update_credential salt id username password role st = (Return false, st) ∧
  delete_credential id st = (Return false, st).
Proof.
  intros Hbad.
  unfold get_document, update_document, delete_document,
    update_credential, delete_credential.
  rewrite Hbad. run. split_and!; try done.
  - intros Hvalid. by rewrite get_collection_valid.
  - intros Hinvalid. by rewrite get_collection_invalid.
Qed.

(** ** C8: creating a collection *)

(** C8 (as the code has it): for a database name and a collection name
    that the driver accepts, the first [create_collection db coll]
    returns true exactly when the collection is not there yet; a second
    call with the same arguments then returns false and changes nothing;
    afterwards [coll] is listed exactly once among the collections of
    [db], and [db] is among the databases (so a database that did not
    exist has been created), every other collection being as before.
    On a database name the driver rejects, and on a rejected name of a
    collection that does not exist, the call raises [InvalidName] and
    creates nothing. *)
Theorem create_collection_twice (st : store) (db coll : string) :
  (valid_names db coll →
   ∃ st1,
     create_collection db coll st =
       (Return (bool_decide (st !! (db, coll) = None)), st1) ∧
     create_collection db coll st1 = (Return false, st1) ∧
     length (filter (λ c, c = coll) (collection_names st1 db)) = 1%nat ∧
     db ∈ database_names st1 ∧
     st1 !! (db, coll) = Some (coll_docs st db coll) ∧
     (∀ k, k ≠ (db, coll) → st1 !! k = st !! k)) ∧
  (valid_database_name db = false →
     create_collection db coll st = (Raise InvalidName, st)) ∧
  (valid_database_name db = true → valid_collection_name coll = false →
   st !! (db, coll) = None →
     create_collection db coll st = (Raise InvalidName, st)).
Proof.
  split_and!.
  - intros Hvalid. pose proof Hvalid as [Hdb Hcoll].
    destruct (st !! (db, coll)) as [docs|] eqn:Hst.
    + exists st.
      assert (Hsome : is_Some (st !! (db, coll))) by (by rewrite Hst).
      rewrite create_collection_present by done.
      split_and!; try done.
      * apply NoDup_count_one; [apply NoDup_collection_names|].
        by apply elem_of_collection_names.
      * apply elem_of_database_names. by exists coll.
      * unfold coll_docs. by rewrite Hst.
    + exists (<[(db, coll) := []]> st).
      assert (Hsome : is_Some (<[(db, coll) := []]> st !! (db, coll)))
        by (by rewrite lookup_insert_eq).
      rewrite create_collection_absent by done.
      rewrite create_collection_present by done.
      split_and!; try done.
      * apply NoDup_count_one; [apply NoDup_collection_names|].
        by apply elem_of_collection_names.
      * apply elem_of_database_names. by exists coll.
      * unfold coll_docs. by rewrite lookup_insert_eq, Hst.
      * intros k Hk. by rewrite lookup_insert_ne.
  - intros Hdb. unfold create_collection. run. by rewrite client_getitem_invalid.
  - intros Hdb Hcoll Hnone.
    unfold create_collection, list_collection_names, db_create_collection. run.
    rewrite client_getitem_valid by done.
    destruct (decide (coll ∈ collection_names st db)) as [Hin|_].
    + apply elem_of_collection_names in Hin. rewrite Hnone in Hin. by destruct Hin.
    + by rewrite Hnone, Hcoll.
Qed.

(** ** Documents as the driver hands them out *)

Lemma to_dict_id (d : @document json) : to_dict d !! "_id" = Some (doc_id d).
Proof. unfold to_dict. apply lookup_insert_eq. Qed.

Lemma to_dict_non_empty (d : @document json) : to_dict d ≠ ∅.
Proof. unfold to_dict. apply insert_non_empty. Qed.

Lemma matches_id (v : value) (d : @document json) : matches "_id" v d ↔ doc_id d = v.
Proof. unfold matches. rewrite to_dict_id. split; congruence. Qed.

Lemma stringify_to_dict (d : @document json) :
  <["_id" := VStr (py_str (doc_id d))]> (to_dict d) = public_dict d.
Proof. unfold to_dict, public_dict. apply insert_insert_eq. Qed.

Lemma public_dict_id (d : @document json) :
  public_dict d !! "_id" = Some (VStr (py_str (doc_id d))).
Proof. unfold public_dict. apply lookup_insert_eq. Qed.

Lemma stringify_loop_to_dict (l : list document) (acc : list dict) (st : store) :
  stringify_loop (to_dict <$> l) acc st = (Return (acc ++ (public_dict <$> l))%list, st).
Proof.
  revert acc. induction l as [|d l IH]; intros acc; cbn [fmap list_fmap stringify_loop].
  - run. by rewrite app_nil_r.
  - unfold subscript. rewrite to_dict_id. run.
    rewrite IH, stringify_to_dict, <- app_assoc. reflexivity.
Qed.

(** ** C4: pagination *)

(** The slice of the collection a request reads. *)
Lemma paginate_documents_returns (st : store) (db coll : string) (pg sz : Z) :
  valid_names db coll →
  0 ≤ (pg - 1) * sz →
  sz ≠ 0 ∨ coll_docs st db coll = [] →
  ∃ r batch,
    paginate_documents db coll pg sz st = (Return r, st) ∧
    batch = (let rest := drop (Z.to_nat ((pg - 1) * sz)) (coll_docs st db coll) in
             if decide (sz = 0) then rest else take (Z.to_nat (Z.abs sz)) rest) ∧
    documents r = public_dict <$> batch ∧
    page r = pg ∧ page_size r = sz ∧
    total r = Z.of_nat (length (coll_docs st db coll)) ∧
    total_pages r = (if decide (total r > 0) then (total r + sz - 1) / sz else 1).
Proof.
  intros Hvalid Hskip Hsz.
  unfold paginate_documents, count_documents, find_skip_limit. run.
  rewrite get_collection_valid by done.
  destruct (decide ((pg - 1) * sz < 0)) as [Hneg|_]; [lia|].
  rewrite stringify_loop_to_dict. cbn [app].
  set (n := Z.of_nat (length (coll_docs st db coll))).
  destruct (decide (n > 0)) as [Hpos|Hzero].
  - unfold floordiv. destruct (decide (sz = 0)) as [->|Hnz].
    + destruct Hsz as [?|Hnil]; [done|]. subst n. rewrite Hnil in Hpos. cbn in Hpos. lia.
    + run. eexists _, _. split; [reflexivity|]. cbn.
      destruct (decide (n > 0)); [|lia].
      destruct (decide (sz = 0)); [done|]. done.
  - run. eexists _, _. split; [reflexivity|]. cbn.
    destruct (decide (n > 0)); [lia|]. done.
Qed.

Lemma ceil_div_bounds (t s : Z) :
  0 < t → 1 ≤ s →
  ((t + s - 1) / s - 1) * s < t ≤ ((t + s - 1) / s) * s.
Proof.
  intros Ht Hs.
  pose proof (Z.div_mod (t + s - 1) s ltac:(lia)) as Hdm.
  pose proof (Z.mod_pos_bound (t + s - 1) s ltac:(lia)) as Hmod.
  nia.
Qed.

(** C4: for a collection (the names being ones the driver accepts),
    [page ≥ 1] and [page_size ≥ 1], [paginate_documents] returns a
    page whose [total] counts all documents of the collection, whose
    [documents] are the at most [page_size] documents from offset
    [(page-1)*page_size] on, and whose [total_pages] is the ceiling of
    [total/page_size], and 1 for an empty collection.  So an empty
    collection gives total 0, one page and no documents, and 25 documents
    in pages of 10 give 10, 10, 5 and then 0 documents, with 3 pages. *)
Theorem paginate_documents_page (st : store) (db coll : string) (pg sz : Z) :
  valid_names db coll →
  1 ≤ pg → 1 ≤ sz →
  ∃ r,
    paginate_documents db coll pg sz st = (Return r, st) ∧
    page r = pg ∧ page_size r = sz ∧
    total r = Z.of_nat (length (coll_docs st db coll)) ∧
    documents r =
      public_dict <$> take (Z.to_nat sz)
                        (drop (Z.to_nat ((pg - 1) * sz)) (coll_docs st db coll)) ∧
    Z.of_nat (length (documents r)) ≤ sz ∧
    Z.of_nat (length (documents r)) = Z.min sz (Z.max 0 (total r - (pg - 1) * sz)) ∧
    1 ≤ total_pages r ∧
    (0 < total r → (total_pages r - 1) * sz < total r ≤ total_pages r * sz) ∧
    (total r = 0 → total_pages r = 1 ∧ documents r = []) ∧
    (total r = 25 → sz = 10 →
       total_pages r = 3 ∧
       (pg = 1 ∨ pg = 2 → length (documents r) = 10%nat) ∧
       (pg = 3 → length (documents r) = 5%nat) ∧
       (4 ≤ pg → documents r = [])).
Proof.
  intros Hvalid Hpg Hsz.
  destruct (paginate_documents_returns st db coll pg sz) as
    (r & batch & Hrun & Hbatch & Hdocs & Hp & Hs & Htotal & Hpages); [done|nia|lia|].
  destruct (decide (sz = 0)) as [?|_]; [lia|].
  rewrite Z.abs_eq in Hbatch by lia. cbn zeta in Hbatch. subst batch.
  assert (Hlen : Z.of_nat (length (documents r)) =
                 Z.min sz (Z.max 0 (total r - (pg - 1) * sz))).
  { rewrite Hdocs, length_fmap, length_take, length_drop, Htotal. nia. }
  assert (Hceil : 0 < total r → (total_pages r - 1) * sz < total r ≤ total_pages r * sz).
  { intros Hpos. rewrite Hpages. destruct (decide (total r > 0)); [|lia].
    by apply ceil_div_bounds. }
  assert (Hone : 1 ≤ total_pages r).
  { destruct (decide (0 < total r)) as [Hpos|Hzero]; [specialize (Hceil Hpos); nia|].
    rewrite Hpages. destruct (decide (total r > 0)); [lia|done]. }
  assert (Hskip : 0 ≤ (pg - 1) * sz) by nia.
  exists r. split_and!; try done.
  - lia.
  - intros Hzero. split.
    + rewrite Hpages. destruct (decide (total r > 0)); [lia|done].
    + apply length_zero_iff_nil. lia.
  - intros H25 ->. specialize (Hceil ltac:(lia)). split_and!.
    + lia.
    + lia.
    + lia.
    + intros Hfour. apply length_zero_iff_nil. lia.
Qed.

(** ** Reading and inserting one document *)

Lemma list_find_matches_id (v : value) (l : list (@document json)) :
  list_find (matches "_id" v) l = list_find (λ d, doc_id d = v) l.
Proof. apply list_find_ext. intros d. apply matches_id. Qed.

Lemma get_document_parsed (st : store) (db coll id : string) (oid : ObjectId.t) :
  valid_names db coll →
  ObjectId.of_string id = Some oid →
  get_document db coll id st =
    (Return ((public_dict ∘ snd) <$>
               list_find (λ d, doc_id d = VOid oid) (coll_docs st db coll)), st).
Proof.
  intros Hvalid Hparse. unfold get_document, find_one. rewrite Hparse. run.
  rewrite get_collection_valid by done.
  rewrite list_find_matches_id.
  destruct (list_find _ _) as [[i d]|]; cbn; [|done].
  destruct (decide _) as [Hempty|_]; [destruct (to_dict_non_empty d Hempty)|].
  unfold subscript. rewrite to_dict_id. run. by rewrite stringify_to_dict.
Qed.

Lemma insert_one_refused (gen : ObjectId.t) (st : store) (db coll : string) (data : dict) :
  (¬ encodable data → insert_one gen db coll data st = (Raise EncodeError, st)) ∧
  (encodable data → id_allowed (default (VOid gen) (data !! "_id")) = false →
     insert_one gen db coll data st = (Raise WriteError, st)).
Proof.
  unfold insert_one. split.
  - intros Hbad. by rewrite decide_False.
  - intros Hok Hid. by rewrite decide_True, Hid.
Qed.

Lemma insert_one_outcome (gen : ObjectId.t) (st : store) (db coll : string) (data : dict) :
  let id := default (VOid gen) (data !! "_id") in
  encodable data → id_allowed id = true →
  (Exists (λ d, doc_id d = id) (coll_docs st db coll) ∧
   insert_one gen db coll data st = (Raise DuplicateKeyError, st)) ∨
  (Forall (λ d, doc_id d ≠ id) (coll_docs st db coll) ∧
   insert_one gen db coll data st =
     (Return id,
      <[(db, coll) := (coll_docs st db coll ++ [Doc id (delete "_id" data)])%list]> st)).
Proof.
  intros id Hok Hid. unfold insert_one. fold id. rewrite decide_True, Hid by done.
  destruct (decide (Exists (λ d, doc_id d = id) (coll_docs st db coll))) as [Hex|Hnex].
  - by left.
  - right. split; [|done]. by apply not_Exists_Forall in Hnex; [|apply _].
Qed.

Lemma coll_docs_insert (st : store) (db coll : string) (docs : list document) :
  coll_docs (<[(db, coll) := docs]> st) db coll = docs.
Proof. unfold coll_docs. by rewrite lookup_insert_eq. Qed.

Lemma coll_docs_insert_ne (st : store) (db coll db' coll' : string) (docs : list document) :
  (db, coll) ≠ (db', coll') →
  coll_docs (<[(db, coll) := docs]> st) db' coll' = coll_docs st db' coll'.
Proof. intros Hne. unfold coll_docs. by rewrite lookup_insert_ne. Qed.

Lemma insert_one_store (gen : ObjectId.t) (st : store) (db coll : string) (data : dict) :
  let id := default (VOid gen) (data !! "_id") in
  (insert_one gen db coll data st).2 = st ∨
  (Forall (λ d, doc_id d ≠ id) (coll_docs st db coll) ∧
   (insert_one gen db coll data st).2 =
     <[(db, coll) := (coll_docs st db coll ++ [Doc id (delete "_id" data)])%list]> st).
Proof.
  intros id. destruct (decide (encodable data)) as [Hok|Hbad].
  - destruct (id_allowed id) eqn:Hid.
    + destruct (insert_one_outcome gen st db coll data Hok Hid) as [[_ ->]|[Hall ->]];
        [by left|by right].
    + left. by rewrite (proj2 (insert_one_refused gen st db coll data) Hok Hid).
  - left. by rewrite (proj1 (insert_one_refused gen st db coll data) Hbad).
Qed.

Lemma encodable_credential (username pwhash role : string) :
  encodable (<["username" := VStr username]>
               (<["password_hash" := VStr pwhash]> (<["role" := VStr role]> ∅))).
Proof.
  unfold encodable. repeat (apply map_Forall_insert_2; [by split|]).
  apply map_Forall_empty.
Qed.

(** ** C9: insert, then get *)

(** Where the round trip holds: when the document is stored under an
    ObjectId of twelve bytes that is new in the collection (the one the
    driver generates, or one the payload brings as [_id]), the names and
    the payload being ones the driver takes, [insert_document] returns
    the rendering X of that ObjectId and [get_document] on X returns the
    payload with [_id = X]. *)
Theorem insert_then_get (gen oid : ObjectId.t) (st : store) (db coll : string)
    (data : dict) :
  valid_names db coll →
  encodable data →
  default (VOid gen) (data !! "_id") = VOid oid →
  ObjectId.generated oid →
  Forall (λ d, doc_id d ≠ VOid oid) (coll_docs st db coll) →
  ∃ X st',
    insert_document gen db coll data st = (Return X, st') ∧
    X = ObjectId.to_string oid ∧
    get_document db coll X st' = (Return (Some (<["_id" := VStr X]> data)), st').
Proof.
  intros Hvalid Hok Hid Hgen Hfresh.
  destruct (insert_one_outcome gen st db coll data Hok) as [[Hex _]|[_ Hins]];
    rewrite Hid in *; [done| |].
  { apply Exists_exists in Hex as (d & Hd & Heq).
    rewrite Forall_forall in Hfresh. by apply Hfresh in Hd. }
  eexists _, _. unfold insert_document. run.
  rewrite get_collection_valid by done. rewrite Hins. cbn [py_str].
  split; [reflexivity|]. split; [reflexivity|].
  rewrite (get_document_parsed _ _ _ _ oid) by (by try apply ObjectId_of_string_to_string).
  rewrite coll_docs_insert, list_find_app_r.
  - cbn. rewrite decide_True by done. cbn.
    unfold public_dict. cbn. by rewrite insert_delete_eq.
  - apply list_find_None. done.
Qed.

(** ** C10: identifiers cross the interface as strings *)

(** C10: on a collection whose names the driver accepts,
    [get_document] never raises and returns, for an id that parses, the
    first stored document with that ObjectId, its [_id] replaced by the
    string rendering of the ObjectId, and [None] when there is none or the
    id does not parse; the documents [paginate_documents] returns are the
    stored documents of the requested slice, each with its [_id] replaced
    by [str] of the stored value; and [insert_document] stores the
    document at the end of the collection and returns [str] of its
    identifier (the rendering of the new ObjectId when the payload has no
    [_id]), unless the identifier is already in the collection
    ([DuplicateKeyError]), the payload cannot be encoded or its [_id] is an
    array, in which cases nothing is stored.  On names the driver rejects
    the three operations raise [InvalidName] and return nothing. *)
Theorem identifiers_returned_as_strings (st : store) (db coll : string) :
  (valid_names db coll →
  (∀ id,
     get_document db coll id st =
       (Return
          (match ObjectId.of_string id with
           | Some oid =>
               (λ p, <["_id" := VStr (ObjectId.to_string oid)]> (doc_fields p.2)) <$>
                 list_find (λ d, doc_id d = VOid oid) (coll_docs st db coll)
           | None => None
           end), st)) ∧
  (∀ pg sz,
     0 ≤ (pg - 1) * sz → sz ≠ 0 ∨ coll_docs st db coll = [] →
     ∃ r,
       paginate_documents db coll pg sz st = (Return r, st) ∧
       documents r =
         (λ d, <["_id" := VStr (py_str (doc_id d))]> (doc_fields d)) <$>
           (let rest := drop (Z.to_nat ((pg - 1) * sz)) (coll_docs st db coll) in
            if decide (sz = 0) then rest else take (Z.to_nat (Z.abs sz)) rest)) ∧
  (∀ gen data,
     let id := default (VOid gen) (data !! "_id") in
     (¬ encodable data →
        insert_document gen db coll data st = (Raise EncodeError, st)) ∧
     (encodable data → id_allowed id = false →
        insert_document gen db coll data st = (Raise WriteError, st)) ∧
     (encodable data → id_allowed id = true →
      Exists (λ d, doc_id d = id) (coll_docs st db coll) →
        insert_document gen db coll data st = (Raise DuplicateKeyError, st)) ∧
     (encodable data → id_allowed id = true →
      Forall (λ d, doc_id d ≠ id) (coll_docs st db coll) →
        insert_document gen db coll data st =
          (Return (py_str id),
           <[(db, coll) :=
               (coll_docs st db coll ++ [Doc id (delete "_id" data)])%list]> st)) ∧
     (data !! "_id" = None → py_str id = ObjectId.to_string gen))) ∧
  (¬ valid_names db coll →
   (∀ id, get_document db coll id st = (Raise InvalidName, st)) ∧
   (∀ pg sz, paginate_documents db coll pg sz st = (Raise InvalidName, st)) ∧
   (∀ gen data, insert_document gen db coll data st = (Raise InvalidName, st))).
Proof.
  split.
  2:{ intros Hinvalid.
      unfold get_document, paginate_documents, insert_document. run.
      by rewrite get_collection_invalid. }
  intros Hvalid. split_and!.
  - intros id. destruct (ObjectId.of_string id) as [oid|] eqn:Hparse.
    + rewrite (get_document_parsed _ _ _ _ oid) by done.
      destruct (list_find _ _) as [[i d]|] eqn:Hfind; cbn; [|done].
      apply list_find_Some in Hfind as (_ & Hid & _).
      unfold public_dict. by rewrite Hid.
    + unfold get_document. run. rewrite get_collection_valid by done.
      by rewrite Hparse.
  - intros pg sz Hskip Hsz.
    destruct (paginate_documents_returns st db coll pg sz Hvalid Hskip Hsz) as
      (r & batch & Hrun & Hbatch & Hdocs & _).
    exists r. split; [done|]. by rewrite Hdocs, Hbatch.
  - intros gen data id. unfold insert_document. run.
    rewrite get_collection_valid by done.
    destruct (insert_one_refused gen st db coll data) as [Henc Hallow].
    split_and!.
    + intros Hbad. by rewrite Henc.
    + intros Hok Hid. by rewrite Hallow.
    + intros Hok Hid Hex.
      destruct (insert_one_outcome gen st db coll data Hok Hid) as [[_ ->]|[Hall _]];
        [done|].
      apply Exists_exists in Hex as (d & Hd & Heq).
      rewrite Forall_forall in Hall. by destruct (Hall d Hd).
    + intros Hok Hid Hall.
      destruct (insert_one_outcome gen st db coll data Hok Hid) as [[Hex _]|[_ ->]];
        [|done].
      apply Exists_exists in Hex as (d & Hd & Heq).
      rewrite Forall_forall in Hall. by destruct (Hall d Hd).
    + subst id. by intros ->.
Qed.

(** ** C2: updates and the identifier *)

Lemma update_one_ids (st : store) (db coll key : string) (v : value) (data : dict)
    (db' coll' : string) :
  doc_id <$> coll_docs (update_one db coll key v data st).2 db' coll' =
  doc_id <$> coll_docs st db' coll'.
Proof.
  unfold update_one. destruct (decide (encodable data)) as [_|_]; [|done].
  destruct (list_find _ _) as [[i d]|] eqn:Hfind; [|done].
  destruct (decide _) as [_|_]; [done|].
  destruct (decide _) as [_|_]; [done|]. cbn [snd].
  apply list_find_Some in Hfind as (Hi & _ & _).
  destruct (decide ((db, coll) = (db', coll'))) as [[= <- <-]|Hne].
  - rewrite coll_docs_insert, list_fmap_insert. cbn [doc_id].
    apply list_insert_id. by rewrite list_lookup_fmap, Hi.
  - by rewrite coll_docs_insert_ne.
Qed.

Lemma update_document_ids (st : store) (db coll id : string) (data : dict)
    (db' coll' : string) :
  doc_id <$> coll_docs (update_document db coll id data st).2 db' coll' =
  doc_id <$> coll_docs st db' coll'.
Proof.
  unfold update_document. run.
  destruct (get_collection_cases st db coll) as [[_ ->]|[_ ->]]; [|done].
  destruct (ObjectId.of_string id) as [oid|]; [|done].
  pose proof (update_one_ids st db coll "_id" (VOid oid) data db' coll') as Hids.
  destruct (update_one db coll "_id" (VOid oid) data st) as [[n|e] st']; exact Hids.
Qed.

Lemma update_one_id_refused (st : store) (db coll : string) (oid : ObjectId.t)
    (data : dict) (i : nat) (d : document) (v : value) :
  encodable data →
  list_find (λ d, doc_id d = VOid oid) (coll_docs st db coll) = Some (i, d) →
  data !! "_id" = Some v → v ≠ VOid oid →
  update_one db coll "_id" (VOid oid) data st = (Raise WriteError, st).
Proof.
  intros Hok Hfind Hv Hne. unfold update_one.
  rewrite decide_True, list_find_matches_id, Hfind by done.
  pose proof Hfind as (_ & Hid & _)%list_find_Some.
  rewrite decide_True; [done|]. split; [by rewrite Hv|]. rewrite Hv, Hid. congruence.
Qed.

Lemma api_update_document_strips (st : store) (session : gmap string string)
    (db coll id : string) (payload : dict) :
  api_update_document session db coll id payload st =
  api_update_document session db coll id (delete "_id" payload) st.
Proof.
  unfold api_update_document.
  destruct (decide (session !! "username" = None)); [done|].
  rewrite lookup_delete_eq.
  destruct (decide (is_Some (payload !! "_id"))) as [_|Hnone].
  - destruct (decide (is_Some None)) as [[? [=]]|_]. done.
  - destruct (decide (is_Some None)) as [[? [=]]|_].
    rewrite delete_id; [done|]. by apply eq_None_not_Some.
Qed.

(** C2 (as the code has it): the identifier of a stored document is the
    same after [update_document] as before, whatever the payload.  The
    core does not strip an [_id] from the payload: it hands the payload
    to the store, which refuses (raises, nothing changed) a payload whose
    [_id] differs from the stored one; the exception is the store's
    [WriteError] when the driver accepts the names and can encode the
    payload.  The [_id] is removed by the routing layer:
    [api_update_document] answers the same whatever [_id] the payload
    carries, never raises, and leaves identifiers as they were. *)
Theorem update_keeps_identifier (st : store) (db coll id : string) (data : dict) :
  (∀ db' coll',
     doc_id <$> coll_docs (update_document db coll id data st).2 db' coll' =
     doc_id <$> coll_docs st db' coll') ∧
  (∀ oid i d v,
     ObjectId.of_string id = Some oid →
     list_find (λ d, doc_id d = VOid oid) (coll_docs st db coll) = Some (i, d) →
     data !! "_id" = Some v → v ≠ VOid oid →
     (∃ e, update_document db coll id data st = (Raise e, st)) ∧
     (valid_names db coll → encodable data →
        update_document db coll id data st = (Raise WriteError, st))) ∧
  (∀ session v,
     api_update_document session db coll id (<["_id" := v]> data) st =
     api_update_document session db coll id (delete "_id" data) st) ∧
  (∀ session, ∃ r st',
     api_update_document session db coll id data st = (Return r, st') ∧
     ∀ db' coll', doc_id <$> coll_docs st' db' coll' = doc_id <$> coll_docs st db' coll').
Proof.
  split_and!.
  - apply update_document_ids.
  - intros oid i d v Hparse Hfind Hv Hne.
    unfold update_document. rewrite Hparse. run.
    destruct (get_collection_cases st db coll) as [[Hvalid ->]|[Hinvalid ->]].
    + destruct (decide (encodable data)) as [Hok|Hbad].
      * rewrite (update_one_id_refused st db coll oid data i d v) by done.
        split; [by eexists|done].
      * unfold update_one. rewrite decide_False by done.
        split; [by eexists|done].
    + split; [by eexists|done].
  - intros session v.
    rewrite api_update_document_strips. by rewrite delete_insert_eq.
  - intros session. rewrite api_update_document_strips.
    unfold api_update_document.
    destruct (decide (session !! "username" = None)).
    { eexists _, _. split; [reflexivity|done]. }
    rewrite lookup_delete_eq. destruct (decide (is_Some None)) as [[? [=]]|_].
    run.
    pose proof (update_document_ids st db coll id (delete "_id" data)) as Hids.
    destruct (update_document db coll id (delete "_id" data) st) as [[[]|e] st'];
      cbn [snd] in Hids; eexists _, _; (split; [reflexivity|exact Hids]).
Qed.

(** ** C6: bootstrap *)

Lemma init_auth_collection_populated (st : store) env salt gen :
  coll_docs st SECURE_DB_NAME SECURE_USERS_COLL ≠ [] →
  init_auth_collection env salt gen st = (Return (), st).
Proof.
  intros Hne. unfold init_auth_collection, count_documents. run.
  rewrite decide_False; [done|].
  destruct (coll_docs st SECURE_DB_NAME SECURE_USERS_COLL); [done|]. cbn [length]. lia.
Qed.

(** The credential [init_auth_collection] creates. *)
Lemma init_auth_collection_empty (st : store) env salt gen :
  coll_docs st SECURE_DB_NAME SECURE_USERS_COLL = [] →
  init_auth_collection env salt gen st =
    (Return (),
     <[(SECURE_DB_NAME, SECURE_USERS_COLL) :=
         [Doc (VOid gen)
            (<["username" := VStr (getenv env "ADMIN_USERNAME" "admin")]>
             (<["password_hash" :=
                  VStr (generate_password_hash salt
                          (getenv env "ADMIN_PASSWORD" "admin123"))]>
              (<["role" := VStr "admin"]> ∅)))]]> st).
Proof.
  intros Hempty. unfold init_auth_collection, count_documents. run.
  rewrite Hempty. cbn [length]. rewrite decide_True by done.
  match goal with |- context [insert_one gen _ _ ?m st] => set (data := m) end.
  assert (Hnoid : data !! "_id" = None) by (subst data; by simplify_map_eq).
  destruct (insert_one_outcome gen st SECURE_DB_NAME SECURE_USERS_COLL data)
    as [[Hex _]|[_ ->]].
  - apply encodable_credential.
  - by rewrite Hnoid.
  - rewrite Hempty in Hex. by apply Exists_nil in Hex.
  - by rewrite Hempty, Hnoid, delete_id.
Qed.

(** C6: on an empty credential collection [init_auth_collection] inserts
    exactly one credential, the admin of the configuration (by default
    [admin]) with the hash of its password and role [admin]; when a
    credential exists it does nothing; so called twice on a populated store
    it inserts nothing, and a second call after a first one never inserts. *)
Theorem init_auth_collection_bootstrap (st : store)
    (env : gmap string string) (salt : string) (gen : ObjectId.t) :
  (coll_docs st SECURE_DB_NAME SECURE_USERS_COLL = [] →
     ∃ st', init_auth_collection env salt gen st = (Return (), st') ∧
       coll_docs st' SECURE_DB_NAME SECURE_USERS_COLL =
         [Doc (VOid gen)
            (<["username" := VStr (getenv env "ADMIN_USERNAME" "admin")]>
             (<["password_hash" :=
                  VStr (generate_password_hash salt
                          (getenv env "ADMIN_PASSWORD" "admin123"))]>
              (<["role" := VStr "admin"]> ∅)))] ∧
       (∀ k, k ≠ (SECURE_DB_NAME, SECURE_USERS_COLL) → st' !! k = st !! k)) ∧
  (coll_docs st SECURE_DB_NAME SECURE_USERS_COLL ≠ [] →
     init_auth_collection env salt gen st = (Return (), st)) ∧
  (∀ env' salt' gen',
     coll_docs st SECURE_DB_NAME SECURE_USERS_COLL ≠ [] →
     (init_auth_collection env salt gen ≫= λ _, init_auth_collection env' salt' gen') st =
       (Return (), st)) ∧
  (∀ env' salt' gen',
     (init_auth_collection env salt gen ≫= λ _, init_auth_collection env' salt' gen') st =
       init_auth_collection env salt gen st).
Proof.
  split_and!.
  - intros Hempty. eexists. split; [by apply init_auth_collection_empty|].
    split; [apply coll_docs_insert|].
    intros k Hk. by rewrite lookup_insert_ne.
  - apply init_auth_collection_populated.
  - intros env' salt' gen' Hne. run.
    rewrite init_auth_collection_populated by done.
    by apply init_auth_collection_populated.
  - intros env' salt' gen'. run.
    destruct (decide (coll_docs st SECURE_DB_NAME SECURE_USERS_COLL = [])) as [Hempty|Hne].
    + rewrite init_auth_collection_empty by done.
      apply init_auth_collection_populated. by rewrite coll_docs_insert.
    + rewrite init_auth_collection_populated by done.
      by apply init_auth_collection_populated.
Qed.

(** ** C7: failed verification *)

(** C7: [verify_user] returns false, and leaves the store as it is, both
    when no stored credential has the username and when the first one that
    has it holds a hash against which the password does not verify; the
    two failures are the same result. *)
Theorem verify_user_uniform_failure (st : store)
    (unknown password1 known password2 : string) :
  let creds := coll_docs st SECURE_DB_NAME SECURE_USERS_COLL in
  let no_such_user := Forall (λ d, ¬ matches "username" (VStr unknown) d) creds in
  let wrong_password :=
    ∃ i d h, list_find (matches "username" (VStr known)) creds = Some (i, d) ∧
             to_dict d !! "password_hash" = Some (VStr h) ∧
             check_password_hash h password2 = Some false in
  (no_such_user → verify_user unknown password1 st = (Return false, st)) ∧
  (wrong_password → verify_user known password2 st = (Return false, st)) ∧
  (no_such_user → wrong_password →
     verify_user unknown password1 st = verify_user known password2 st).
Proof.
  intros creds no_such_user wrong_password.
  assert (H1 : no_such_user → verify_user unknown password1 st = (Return false, st)).
  { intros Hnone. unfold verify_user, find_one. run. fold creds.
    by rewrite (proj2 (list_find_None (matches "username" (VStr unknown)) creds) Hnone). }
  assert (H2 : wrong_password → verify_user known password2 st = (Return false, st)).
  { intros (i & d & h & Hfind & Hhash & Hcheck).
    unfold verify_user, find_one. run. fold creds. rewrite Hfind. cbn.
    destruct (decide _) as [Hempty|_]; [destruct (to_dict_non_empty d Hempty)|].
    unfold subscript. rewrite Hhash. run. cbn. by rewrite Hcheck. }
  split_and!; [done|done|]. intros Hu Hp. by rewrite H1, H2.
Qed.

(** * Further properties of the core *)

(** ** Listing databases *)

(** [list_databases] reads the store without changing it and returns,
    without repetition, exactly the databases that have a collection and
    are not named [admin], [local] or [config]; the secure database is
    listed like any other. *)
Theorem list_databases_hides_reserved (st : store) :
  ∃ names,
    list_databases st = (Return names, st) ∧
    NoDup names ∧
    (∀ d, d ∈ names ↔
          (d ∉ ["admin"; "local"; "config"]) ∧ ∃ coll, is_Some (st !! (d, coll))) ∧
    (is_Some (st !! (SECURE_DB_NAME, SECURE_USERS_COLL)) → SECURE_DB_NAME ∈ names).
Proof.
  unfold list_databases, list_database_names. run. eexists. split; [reflexivity|].
  assert (Hmem : ∀ d,
    d ∈ filter (λ d, d ∉ ["admin"; "local"; "config"]) (database_names st) ↔
    (d ∉ ["admin"; "local"; "config"]) ∧ ∃ coll, is_Some (st !! (d, coll))).
  { intros d. by rewrite list_elem_of_filter, elem_of_database_names. }
  split_and!.
  - apply NoDup_filter. unfold database_names. apply NoDup_elements.
  - exact Hmem.
  - intros Hsecure. apply Hmem. split.
    + intros Hin. repeat (apply elem_of_cons in Hin as [Heq|Hin]; [discriminate Heq|]).
      by apply elem_of_nil in Hin.
    + by exists SECURE_USERS_COLL.
Qed.

(** ** Operations that only read *)

Lemma stringify_loop_store (cursor acc : list dict) (st : store) :
  (stringify_loop cursor acc st).2 = st.
Proof.
  revert acc. induction cursor as [|d cursor IH]; intros acc; cbn [stringify_loop]; [done|].
  unfold subscript. destruct (d !! "_id") as [v|]; run; [apply IH|done].
Qed.

Lemma credentials_loop_store (cursor acc : list dict) (st : store) :
  (credentials_loop cursor acc st).2 = st.
Proof.
  revert acc. induction cursor as [|u cursor IH]; intros acc; cbn [credentials_loop]; [done|].
  unfold subscript. destruct (u !! "_id") as [v|]; run; [|done].
  destruct (u !! "username") as [w|]; run; [apply IH|done].
Qed.

(** Whatever they return or raise, [paginate_documents], [get_document],
    [verify_user], [list_databases], [get_collections] and
    [list_credentials] leave the store exactly as it was. *)
Theorem read_operations_leave_store (st : store) :
  (∀ db coll pg sz, (paginate_documents db coll pg sz st).2 = st) ∧
  (∀ db coll id, (get_document db coll id st).2 = st) ∧
  (∀ username password, (verify_user username password st).2 = st) ∧
  (list_databases st).2 = st ∧
  (∀ db, (get_collections db st).2 = st) ∧
  (list_credentials st).2 = st.
Proof.
  split_and!.
  - intros db coll pg sz.
    unfold paginate_documents, count_documents, find_skip_limit. run.
    destruct (get_collection_cases st db coll) as [[_ ->]|[_ ->]]; [|done].
    destruct (decide _) as [_|_]; [done|].
    match goal with |- context [stringify_loop ?c ?a st] =>
      pose proof (stringify_loop_store c a st) as Hloop;
      destruct (stringify_loop c a st) as [[docs|e] st'] end;
      cbn [snd] in Hloop; subst st'; [|done].
    destruct (decide _) as [_|_]; [|done].
    unfold floordiv. by destruct (decide _).
  - intros db coll id. unfold get_document, find_one. run.
    destruct (get_collection_cases st db coll) as [[_ ->]|[_ ->]]; [|done].
    destruct (ObjectId.of_string id) as [oid|]; [|done].
    destruct (list_find _ _) as [[i d]|]; cbn; [|done].
    destruct (decide _) as [_|_]; [done|].
    unfold subscript. by destruct (to_dict d !! "_id").
  - intros username password. unfold verify_user, find_one. run.
    destruct (list_find _ _) as [[i d]|]; cbn; [|done].
    destruct (decide _) as [_|_]; [done|].
    unfold subscript. destruct (to_dict d !! "password_hash") as [[o|h|j]|]; run;
      try done.
    cbn. by destruct (check_password_hash h password).
  - done.
  - intros db. unfold get_collections, client_getitem, list_collection_names. run.
    by destruct (valid_database_name db).
  - unfold list_credentials, find_all. run. apply credentials_loop_store.
Qed.

(** ** Pagination outside its domain, and across pages *)

(** On a collection whose names the driver accepts, a request whose
    offset [(page-1)*page_size] is negative (page 0, say) raises
    [ValueError]; a page size of 0 raises [ZeroDivisionError] on a
    collection that has documents, and on an empty one gives the empty
    single page; the store is unchanged in each case. *)
Theorem paginate_documents_out_of_domain (st : store) (db coll : string) (pg sz : Z) :
  valid_names db coll →
  ((pg - 1) * sz < 0 →
     paginate_documents db coll pg sz st = (Raise ValueError, st)) ∧
  (sz = 0 → coll_docs st db coll ≠ [] →
     paginate_documents db coll pg sz st = (Raise ZeroDivisionError, st)) ∧
  (sz = 0 → coll_docs st db coll = [] →
     paginate_documents db coll pg sz st =
       (Return {| documents := []; page := pg; page_size := 0;
                  total := 0; total_pages := 1 |}, st)).
Proof.
  intros Hvalid. split_and!.
  - intros Hneg. unfold paginate_documents, count_documents, find_skip_limit. run.
    rewrite get_collection_valid by done.
    by rewrite decide_True.
  - intros -> Hne. unfold paginate_documents, count_documents, find_skip_limit. run.
    rewrite get_collection_valid by done.
    rewrite decide_False by lia. rewrite stringify_loop_to_dict.
    rewrite decide_True.
    + unfold floordiv. by rewrite decide_True.
    + destruct (coll_docs st db coll); [done|]. cbn [length]. lia.
  - intros -> Hempty.
    destruct (paginate_documents_returns st db coll pg 0) as
      (r & batch & -> & Hbatch & Hdocs & Hp & Hs & Htotal & Hpages); [done|lia|by right|].
    rewrite Hempty in Hbatch, Htotal. rewrite drop_nil in Hbatch.
    cbn in Hbatch, Htotal. subst batch.
    rewrite Htotal in Hpages. rewrite decide_False in Hpages by lia.
    destruct r as [ds p s t tp]. cbn in *. by subst.
Qed.

Lemma page_documents_slice (st : store) (db coll : string) (pg sz : Z) :
  valid_names db coll →
  1 ≤ pg → 1 ≤ sz →
  page_documents st db coll pg sz =
    public_dict <$> take (Z.to_nat sz)
                      (drop (Z.to_nat ((pg - 1) * sz)) (coll_docs st db coll)).
Proof.
  intros Hvalid Hpg Hsz. unfold page_documents.
  destruct (paginate_documents_returns st db coll pg sz) as
    (r & batch & -> & Hbatch & Hdocs & _); [done|nia|lia|].
  cbn [fst]. rewrite Hdocs, Hbatch. cbn zeta.
  rewrite decide_False by lia. by rewrite Z.abs_eq by lia.
Qed.

Lemma concat_pages {A B} (f : A → B) (l : list A) (s n : nat) :
  concat ((λ p, f <$> take s (drop ((p - 1) * s) l)) <$> seq 1 n) = f <$> take (n * s) l.
Proof.
  induction n as [|n IH]; [done|].
  rewrite seq_S, fmap_app, concat_app, IH. cbn [fmap list_fmap concat].
  rewrite app_nil_r. replace (1 + n - 1)%nat with n by lia.
  rewrite <- fmap_app, take_take_drop. do 2 f_equal. lia.
Qed.

(** For a page size of at least 1, the pages 1, ..., [total_pages] of a
    collection (the names being ones the driver accepts), one after the
    other, are all its documents, each once and in the collection's
    order. *)
Theorem pages_cover_collection (st : store) (db coll : string) (sz : Z) :
  valid_names db coll →
  1 ≤ sz →
  ∃ r, paginate_documents db coll 1 sz st = (Return r, st) ∧
       concat ((λ p, page_documents st db coll (Z.of_nat p) sz)
                 <$> seq 1 (Z.to_nat (total_pages r))) =
         public_dict <$> coll_docs st db coll.
Proof.
  intros Hvalid Hsz.
  destruct (paginate_documents_returns st db coll 1 sz) as
    (r & batch & Hrun & _ & _ & _ & _ & Htotal & Hpages); [done|lia|lia|].
  exists r. split; [exact Hrun|].
  set (l := coll_docs st db coll) in *.
  transitivity (concat ((λ p, public_dict <$> take (Z.to_nat sz)
                                 (drop ((p - 1) * Z.to_nat sz) l))
                          <$> seq 1 (Z.to_nat (total_pages r)))).
  - f_equal. apply list_fmap_ext. intros i p Hp.
    apply lookup_seq in Hp as [-> _].
    rewrite page_documents_slice by (done || lia). do 3 f_equal. nia.
  - rewrite concat_pages. f_equal. apply take_ge.
    destruct (decide (total r > 0)) as [Hpos|Hzero].
    + pose proof (ceil_div_bounds (total r) sz ltac:(lia) Hsz) as Hceil.
      rewrite <- Hpages in Hceil. nia.
    + lia.
Qed.

(** With documents in the collection (the names being ones the driver
    accepts) and a page size of at least 1, page [pg ≥ 1] is empty exactly
    when [pg] is beyond [total_pages]. *)
Theorem page_empty_iff_beyond_last (st : store) (db coll : string) (pg sz : Z) :
  valid_names db coll →
  1 ≤ pg → 1 ≤ sz → coll_docs st db coll ≠ [] →
  ∃ r, paginate_documents db coll pg sz st = (Return r, st) ∧
       (documents r = [] ↔ total_pages r < pg).
Proof.
  intros Hvalid Hpg Hsz Hne.
  destruct (paginate_documents_returns st db coll pg sz) as
    (r & batch & Hrun & Hbatch & Hdocs & _ & _ & Htotal & Hpages); [done|nia|lia|].
  exists r. split; [exact Hrun|].
  assert (Hpos : 0 < total r).
  { rewrite Htotal. destruct (coll_docs st db coll); [done|]. cbn [length]. lia. }
  rewrite decide_True in Hpages by lia.
  pose proof (ceil_div_bounds (total r) sz Hpos Hsz) as Hceil. rewrite <- Hpages in Hceil.
  cbn zeta in Hbatch. rewrite decide_False in Hbatch by lia.
  rewrite Z.abs_eq in Hbatch by lia.
  assert (Hlen : Z.of_nat (length (documents r)) =
                 Z.min sz (Z.max 0 (total r - (pg - 1) * sz))).
  { rewrite Hdocs, Hbatch, length_fmap, length_take, length_drop, Htotal. nia. }
  rewrite <- length_zero_iff_nil. split; intros Hcase; nia.
Qed.

(** ** Documents: what an operation touches *)

Ltac enter :=
  match goal with
  | |- context [(get_collection ?db ?coll ≫= ?k) ?st] =>
      let Hv := fresh "Hvalid" in
      let H := fresh in
      destruct (get_collection_bind k st db coll) as [[Hv H]|[Hv H]];
      rewrite H; clear H; cbn beta
  | |- context [(client_getitem ?db ≫= ?k) ?st] =>
      let Hv := fresh "Hvalid" in
      let H := fresh in
      destruct (client_getitem_bind k st db) as [[Hv H]|[Hv H]];
      rewrite H; clear H; cbn beta
  end.

Lemma bind_mret_store {A B} (m : M A) (f : A → B) (st : store) :
  ((m ≫= λ a, mret (f a)) st).2 = (m st).2.
Proof. run. by destruct (m st) as [[a|e] st']. Qed.

Lemma insert_one_frame (gen : ObjectId.t) (db coll : string) (data : dict) (st : store)
    (k : string * string) :
  k ≠ (db, coll) → (insert_one gen db coll data st).2 !! k = st !! k.
Proof.
  intros Hk. destruct (insert_one_store gen st db coll data) as [->|[_ ->]]; [done|].
  by rewrite lookup_insert_ne.
Qed.

Lemma coll_docs_is_Some (st : store) (db coll : string) (d : document) :
  d ∈ coll_docs st db coll → is_Some (st !! (db, coll)).
Proof.
  unfold coll_docs. destruct (st !! (db, coll)); [done|].
  cbn. by intros ?%elem_of_nil.
Qed.

Lemma update_one_frame (db coll key : string) (v : value) (data : dict) (st : store) :
  dom (update_one db coll key v data st).2 = dom st ∧
  ∀ k, k ≠ (db, coll) → (update_one db coll key v data st).2 !! k = st !! k.
Proof.
  unfold update_one. destruct (decide (encodable data)) as [_|_]; [|done].
  destruct (list_find _ _) as [[i d]|] eqn:Hfind; [|done].
  destruct (decide _); [done|]. destruct (decide _); [done|]. cbn [snd].
  apply list_find_Some in Hfind as (Hi & _ & _).
  apply list_elem_of_lookup_2, coll_docs_is_Some in Hi. split.
  - by apply dom_insert_lookup_L.
  - intros k Hk. by rewrite lookup_insert_ne.
Qed.

Lemma delete_one_frame (db coll key : string) (v : value) (st : store) :
  dom (delete_one db coll key v st).2 = dom st ∧
  ∀ k, k ≠ (db, coll) → (delete_one db coll key v st).2 !! k = st !! k.
Proof.
  unfold delete_one.
  destruct (list_find _ _) as [[i d]|] eqn:Hfind; [|done]. cbn [snd].
  apply list_find_Some in Hfind as (Hi & _ & _).
  apply list_elem_of_lookup_2, coll_docs_is_Some in Hi. split.
  - by apply dom_insert_lookup_L.
  - intros k Hk. by rewrite lookup_insert_ne.
Qed.

(** [insert_document], [update_document] and [delete_document] on the
    collection [(db, coll)] leave every other collection as it was, and
    the last two never create or remove a collection. *)
Theorem document_operations_frame (st : store) (db coll : string) :
  (∀ k gen data, k ≠ (db, coll) →
     (insert_document gen db coll data st).2 !! k = st !! k) ∧
  (∀ id data,
     dom (update_document db coll id data st).2 = dom st ∧
     ∀ k, k ≠ (db, coll) → (update_document db coll id data st).2 !! k = st !! k) ∧
  (∀ id,
     dom (delete_document db coll id st).2 = dom st ∧
     ∀ k, k ≠ (db, coll) → (delete_document db coll id st).2 !! k = st !! k).
Proof.
  split_and!.
  - intros k gen data Hk. unfold insert_document. enter; [|done].
    rewrite bind_mret_store. by apply insert_one_frame.
  - intros id data. unfold update_document. enter; [|done].
    destruct (ObjectId.of_string id) as [oid|]; [|done].
    rewrite bind_mret_store. apply update_one_frame.
  - intros id. unfold delete_document. enter; [|done].
    destruct (ObjectId.of_string id) as [oid|]; [|done].
    rewrite bind_mret_store. apply delete_one_frame.
Qed.

(** ** Documents: identifiers stay unique *)

Lemma unique_ids_insert (st : store) (db coll : string) (docs : list document) :
  unique_ids st → NoDup (doc_id <$> docs) → unique_ids (<[(db, coll) := docs]> st).
Proof.
  intros Huniq Hdocs db' coll'.
  destruct (decide ((db, coll) = (db', coll'))) as [[= <- <-]|Hne].
  - by rewrite coll_docs_insert.
  - rewrite coll_docs_insert_ne by done. apply Huniq.
Qed.

Lemma insert_one_unique (gen : ObjectId.t) (db coll : string) (data : dict) (st : store) :
  unique_ids st → unique_ids (insert_one gen db coll data st).2.
Proof.
  intros Huniq.
  destruct (insert_one_store gen st db coll data) as [->|[Hfresh ->]]; [done|].
  apply unique_ids_insert; [done|].
  rewrite fmap_app. apply NoDup_app. split_and!.
  - apply Huniq.
  - intros v Hv Hin. cbn in Hin. apply list_elem_of_singleton in Hin as ->.
    apply list_elem_of_fmap in Hv as (d & Hid & Hd).
    rewrite Forall_forall in Hfresh. by apply (Hfresh d Hd).
  - cbn. apply NoDup_singleton.
Qed.

Lemma update_one_unique (db coll key : string) (v : value) (data : dict) (st : store) :
  unique_ids st → unique_ids (update_one db coll key v data st).2.
Proof. intros Huniq db' coll'. rewrite update_one_ids. apply Huniq. Qed.

Lemma delete_one_unique (db coll key : string) (v : value) (st : store) :
  unique_ids st → unique_ids (delete_one db coll key v st).2.
Proof.
  intros Huniq. unfold delete_one.
  destruct (list_find _ _) as [[i d]|]; [|done]. cbn [snd].
  apply unique_ids_insert; [done|].
  rewrite list_fmap_delete.
  apply (sublist_NoDup _ (doc_id <$> coll_docs st db coll)); [apply Huniq|].
  apply sublist_delete.
Qed.

(** If no collection holds two documents with the same [_id], this is
    still so after any operation of the core that writes: inserting,
    updating and deleting documents and credentials, bootstrapping, and
    creating and dropping collections and databases. *)
Theorem unique_ids_preserved (st : store) :
  unique_ids st →
  (∀ gen db coll data, unique_ids (insert_document gen db coll data st).2) ∧
  (∀ db coll id data, unique_ids (update_document db coll id data st).2) ∧
  (∀ db coll id, unique_ids (delete_document db coll id st).2) ∧
  (∀ env salt gen, unique_ids (init_auth_collection env salt gen st).2) ∧
  (∀ salt gen username password role,
     unique_ids (add_credential salt gen username password role st).2) ∧
  (∀ salt id username password role,
     unique_ids (update_credential salt id username password role st).2) ∧
  (∀ id, unique_ids (delete_credential id st).2) ∧
  (∀ db coll, unique_ids (create_collection db coll st).2) ∧
  (∀ db coll, unique_ids (delete_collection db coll st).2) ∧
  (∀ db, unique_ids (delete_database db st).2).
Proof.
  intros Huniq. split_and!.
  - intros. unfold insert_document. enter; [|done].
    rewrite bind_mret_store. by apply insert_one_unique.
  - intros db coll id data. unfold update_document. enter; [|done].
    destruct (ObjectId.of_string id); [|done].
    rewrite bind_mret_store. by apply update_one_unique.
  - intros db coll id. unfold delete_document. enter; [|done].
    destruct (ObjectId.of_string id); [|done].
    rewrite bind_mret_store. by apply delete_one_unique.
  - intros env salt gen. unfold init_auth_collection, count_documents. run.
    destruct (decide _); [|done].
    match goal with |- context [insert_one gen ?a ?b ?m st] =>
      pose proof (insert_one_unique gen a b m st Huniq) as Hins;
      destruct (insert_one gen a b m st) as [[v|err] st'] end; exact Hins.
  - intros. unfold add_credential. cbn zeta.
    rewrite bind_mret_store. by apply insert_one_unique.
  - intros salt id username password role. unfold update_credential.
    destruct (ObjectId.of_string id); [|done]. cbn zeta.
    rewrite bind_mret_store. by apply update_one_unique.
  - intros id. unfold delete_credential.
    destruct (ObjectId.of_string id); [|done].
    rewrite bind_mret_store. by apply delete_one_unique.
  - intros db coll. destruct (create_collection_store st db coll) as [->| ->]; [done|].
    apply unique_ids_insert; [done|]. cbn. apply NoDup_nil_2.
  - intros db coll. destruct (delete_collection_store st db coll) as [->| ->]; [done|].
    intros db' coll'. unfold coll_docs.
    destruct (decide ((db, coll) = (db', coll'))) as [<-|Hne].
    + rewrite lookup_delete_eq. cbn. apply NoDup_nil_2.
    + rewrite lookup_delete_ne by done. apply Huniq.
  - intros db. destruct (delete_database_store st db) as [->| ->]; [done|].
    intros db' coll'. unfold coll_docs.
    destruct (filter _ st !! (db', coll')) as [docs|] eqn:Hf.
    + apply map_lookup_filter_Some in Hf as [Hst _].
      specialize (Huniq db' coll'). unfold coll_docs in Huniq. by rewrite Hst in Huniq.
    + cbn. apply NoDup_nil_2.
Qed.

(** ** Documents: deleting and updating one *)

Lemma list_find_id_elem_of (v : value) (l : list (@document json)) :
  v ∈ doc_id <$> l → is_Some (list_find (λ d, doc_id d = v) l).
Proof.
  intros (d & -> & Hd)%list_elem_of_fmap. by eapply list_find_elem_of.
Qed.

Lemma list_find_id_not_elem_of (v : value) (l : list (@document json)) :
  v ∉ doc_id <$> l → list_find (λ d, doc_id d = v) l = None.
Proof.
  intros Hnin. apply list_find_None, Forall_forall. intros d Hd Heq.
  apply Hnin, list_elem_of_fmap. by exists d.
Qed.

Lemma NoDup_delete_not_elem_of {A} (l : list A) (i : nat) (x : A) :
  NoDup l → l !! i = Some x → x ∉ delete i l.
Proof.
  intros Hnd Hi. rewrite <- (take_drop_middle l i x Hi) in Hnd.
  apply NoDup_app in Hnd as (_ & Hdisj & [Hx _]%NoDup_cons).
  rewrite delete_take_drop. intros [Hin|Hin]%elem_of_app; [|done].
  apply (Hdisj x Hin). apply elem_of_cons. by left.
Qed.

Lemma elem_of_delete_ne {A} (l : list A) (i : nat) (x y : A) :
  l !! i = Some x → y ∈ l → y ≠ x → y ∈ delete i l.
Proof.
  intros Hi Hy Hne. rewrite <- (take_drop_middle l i x Hi) in Hy.
  rewrite delete_take_drop. apply elem_of_app.
  apply elem_of_app in Hy as [Hy|Hy]; [by left|].
  apply elem_of_cons in Hy as [->|Hy]; [done|by right].
Qed.

Lemma delete_one_id_found (st : store) (db coll : string) (v : value)
    (i : nat) (d : document) :
  list_find (λ d, doc_id d = v) (coll_docs st db coll) = Some (i, d) →
  delete_one db coll "_id" v st =
    (Return 1, <[(db, coll) := delete i (coll_docs st db coll)]> st).
Proof. intros Hfind. unfold delete_one. by rewrite list_find_matches_id, Hfind. Qed.

Lemma delete_one_id_absent (st : store) (db coll : string) (v : value) :
  list_find (λ d, doc_id d = v) (coll_docs st db coll) = None →
  delete_one db coll "_id" v st = (Return 0, st).
Proof. intros Hfind. unfold delete_one. by rewrite list_find_matches_id, Hfind. Qed.

(** Deleting twice, in a collection whose names the driver accepts: when
    the identifiers of the collection are distinct and one of them is the
    parsed [id], [delete_document] returns true and removes that document
    and no other; after that [get_document] no longer finds it and a
    second [delete_document] returns false. *)
Theorem delete_document_twice (st : store) (db coll id : string) (oid : ObjectId.t) :
  valid_names db coll →
  ObjectId.of_string id = Some oid →
  VOid oid ∈ doc_id <$> coll_docs st db coll →
  NoDup (doc_id <$> coll_docs st db coll) →
  ∃ st',
    delete_document db coll id st = (Return true, st') ∧
    (∀ d, d ∈ coll_docs st' db coll ↔ d ∈ coll_docs st db coll ∧ doc_id d ≠ VOid oid) ∧
    S (length (coll_docs st' db coll)) = length (coll_docs st db coll) ∧
    get_document db coll id st' = (Return None, st') ∧
    delete_document db coll id st' = (Return false, st').
Proof.
  intros Hvalid Hparse Hin Hnd.
  destruct (list_find_id_elem_of _ _ Hin) as [[i d] Hfind].
  pose proof Hfind as (Hi & Hid & _)%list_find_Some.
  set (docs := coll_docs st db coll) in *.
  assert (Hgone : VOid oid ∉ doc_id <$> delete i docs).
  { rewrite list_fmap_delete. apply NoDup_delete_not_elem_of; [done|].
    by rewrite list_lookup_fmap, Hi, <- Hid. }
  exists (<[(db, coll) := delete i docs]> st).
  unfold delete_document, get_document, find_one. rewrite Hparse. run.
  rewrite !get_collection_valid by done.
  rewrite (delete_one_id_found st db coll (VOid oid) i d Hfind).
  rewrite !coll_docs_insert. fold docs. split_and!.
  - done.
  - intros d'. split.
    + intros Hd'. split.
      * eapply elem_of_sublist; [exact Hd'|apply sublist_delete].
      * intros Heq. apply Hgone, list_elem_of_fmap. by exists d'.
    + intros [Hd' Hne]. eapply elem_of_delete_ne; [done..|]. congruence.
  - rewrite length_delete by (by eexists). apply lookup_lt_Some in Hi. lia.
  - rewrite list_find_matches_id, (list_find_id_not_elem_of _ _ Hgone). done.
  - rewrite delete_one_id_absent; [done|].
    rewrite coll_docs_insert. by apply list_find_id_not_elem_of.
Qed.

(** A well-formed id that is not the [_id] of any document of the
    collection, the names being ones the driver accepts: [get_document]
    returns [None], [delete_document] returns false, and so does
    [update_document] for a payload the encoder takes; the store is
    unchanged. *)
Theorem unknown_id_is_not_found (st : store) (db coll id : string) (oid : ObjectId.t)
    (data : dict) :
  valid_names db coll →
  ObjectId.of_string id = Some oid →
  VOid oid ∉ doc_id <$> coll_docs st db coll →
  get_document db coll id st = (Return None, st) ∧
  (encodable data → update_document db coll id data st = (Return false, st)) ∧
  delete_document db coll id st = (Return false, st).
Proof.
  intros Hvalid Hparse Hnin. apply list_find_id_not_elem_of in Hnin.
  unfold get_document, update_document, delete_document, find_one, update_one.
  rewrite Hparse. run. rewrite !get_collection_valid by done.
  rewrite !list_find_matches_id, Hnin.
  rewrite delete_one_id_absent by done. split_and!; [done| |done].
  intros Hok. by rewrite decide_True.
Qed.

Lemma to_dict_eq_iff (id : value) (m1 m2 : dict) :
  m1 !! "_id" = None → m2 !! "_id" = None →
  to_dict (Doc id m1) = to_dict (Doc id m2) ↔ m1 = m2.
Proof.
  intros H1 H2. split; [|by intros ->].
  unfold to_dict. cbn. intros Heq. apply map_eq. intros k.
  destruct (decide (k = "_id")) as [->|Hk]; [by rewrite H1, H2|].
  apply (f_equal (.!! k)) in Heq. by rewrite !lookup_insert_ne in Heq.
Qed.

Lemma update_one_id_found (st : store) (db coll : string) (oid : ObjectId.t)
    (data : dict) (i : nat) (d : document) :
  encodable data →
  list_find (λ d, doc_id d = VOid oid) (coll_docs st db coll) = Some (i, d) →
  data !! "_id" = None ∨ data !! "_id" = Some (VOid oid) →
  let d' := Doc (doc_id d) (delete "_id" data ∪ doc_fields d) in
  update_one db coll "_id" (VOid oid) data st =
    if decide (to_dict d' = to_dict d) then (Return 0, st)
    else (Return 1, <[(db, coll) := <[i := d']> (coll_docs st db coll)]> st).
Proof.
  intros Hok Hfind Hid d'. unfold update_one.
  rewrite decide_True, list_find_matches_id, Hfind by done.
  pose proof Hfind as (_ & Hd & _)%list_find_Some.
  rewrite decide_False; [done|].
  intros [[v Hv] Hne]. destruct Hid as [Hid|Hid]; congruence.
Qed.

(** Updating is a merge: in a collection whose names the driver accepts,
    for a payload without [_id] that the encoder takes and whose keys name
    top-level fields, and an id that is found, [update_document] gives the
    document the fields of the payload and keeps its other fields and its
    identifier, as [get_document] then shows; it returns false exactly
    when every field of the payload already had that value, and then the
    store is unchanged. *)
Theorem update_document_merges (st : store) (db coll id : string) (oid : ObjectId.t)
    (data : dict) (i : nat) (d : document) :
  valid_names db coll →
  encodable data → plain_keys data →
  ObjectId.of_string id = Some oid →
  list_find (λ d, doc_id d = VOid oid) (coll_docs st db coll) = Some (i, d) →
  data !! "_id" = None →
  ∃ b st',
    update_document db coll id data st = (Return b, st') ∧
    (b = false ↔ ∀ k v, data !! k = Some v → to_dict d !! k = Some v) ∧
    (b = false → st' = st) ∧
    get_document db coll id st' =
      (Return (Some (<["_id" := VStr (ObjectId.to_string oid)]> (data ∪ doc_fields d))),
       st').
Proof.
  intros Hvalid Hok _ Hparse Hfind Hnoid.
  pose proof Hfind as (Hi & Hd & Hfirst)%list_find_Some.
  set (d' := Doc (doc_id d) (data ∪ doc_fields d)).
  assert (Hsame : to_dict d' = to_dict d ↔
                  ∀ k v, data !! k = Some v → to_dict d !! k = Some v).
  { split.
    - intros Heq k v Hk. rewrite <- Heq. unfold to_dict, d'. cbn.
      rewrite lookup_insert_ne by congruence. by apply lookup_union_Some_l.
    - intros Hsub. apply map_eq. intros k. unfold to_dict, d'. cbn.
      destruct (decide (k = "_id")) as [->|Hk]; [by rewrite !lookup_insert_eq|].
      rewrite !lookup_insert_ne by done.
      destruct (data !! k) as [v|] eqn:Hdk.
      + rewrite (lookup_union_Some_l _ _ _ _ Hdk).
        specialize (Hsub k v Hdk). unfold to_dict in Hsub.
        by rewrite lookup_insert_ne in Hsub.
      + by rewrite lookup_union_r. }
  assert (Hget : ∀ docs', list_find (λ d, doc_id d = VOid oid) docs' = Some (i, d') ∨
                          (list_find (λ d, doc_id d = VOid oid) docs' = Some (i, d) ∧
                           to_dict d' = to_dict d) →
    get_document db coll id (<[(db, coll) := docs']> st) =
      (Return (Some (<["_id" := VStr (ObjectId.to_string oid)]> (data ∪ doc_fields d))),
       <[(db, coll) := docs']> st)).
  { intros docs' Hcase. rewrite (get_document_parsed _ _ _ _ oid) by done.
    rewrite coll_docs_insert.
    destruct Hcase as [->|[-> Heq]]; cbn.
    - unfold public_dict, d'. cbn. by rewrite Hd.
    - assert (Hp : public_dict d = public_dict d').
      { rewrite <- (stringify_to_dict d), <- Heq.
        unfold to_dict, public_dict, d'. cbn. by rewrite insert_insert_eq. }
      rewrite Hp. unfold public_dict, d'. cbn. by rewrite Hd. }
  unfold update_document. rewrite Hparse. run.
  rewrite get_collection_valid by done.
  rewrite (update_one_id_found st db coll oid data i d Hok Hfind) by (by left).
  cbn zeta. rewrite (delete_id data) by done. fold d'.
  destruct (decide (to_dict d' = to_dict d)) as [Heq|Hne].
  - exists false, st. split_and!; [done| |done|].
    + split; [intros _; by apply Hsame|done].
    + pose proof (Hget (coll_docs st db coll) (or_intror (conj Hfind Heq))) as Hg.
      rewrite insert_id in Hg; [exact Hg|].
      apply list_elem_of_lookup_2, coll_docs_is_Some in Hi.
      destruct Hi as [docs Hdocs]. unfold coll_docs. by rewrite Hdocs.
  - eexists true, _. split_and!; [done| |done|].
    + split; [done|]. intros Hsub. by apply Hsame in Hsub.
    + apply Hget. left. apply list_find_Some. split_and!.
      * apply list_lookup_insert_eq. by eapply lookup_lt_Some.
      * done.
      * intros j y Hj Hlt. rewrite list_lookup_insert_ne in Hj by lia.
        by eapply Hfirst.
Qed.

(** Repeating an update changes nothing more: when [update_document]
    returns (does not raise), the same call on the resulting store returns
    false and leaves that store as it is. *)
Theorem update_document_twice (st st' : store) (db coll id : string) (data : dict)
    (b : bool) :
  update_document db coll id data st = (Return b, st') →
  update_document db coll id data st' = (Return false, st').
Proof.
  unfold update_document. run.
  destruct (get_collection_cases st db coll) as [[Hvalid ->]|[_ ->]]; [|done].
  destruct (ObjectId.of_string id) as [oid|];
    [|intros [= _ <-]; by rewrite get_collection_valid].
  unfold update_one. destruct (decide (encodable data)) as [Henc|]; [|done].
  rewrite list_find_matches_id.
  destruct (list_find _ (coll_docs st db coll)) as [[i d]|] eqn:Hfind.
  2:{ intros [= _ <-]. rewrite get_collection_valid by done.
      by rewrite list_find_matches_id, Hfind. }
  pose proof Hfind as (Hi & Hd & Hfirst)%list_find_Some.
  destruct (decide (is_Some (data !! "_id") ∧ data !! "_id" ≠ Some (doc_id d)))
    as [|Hok]; [done|].
  set (d' := Doc (doc_id d) (delete "_id" data ∪ doc_fields d)).
  destruct (decide (to_dict d' = to_dict d)) as [Heq|Hne]; intros [= _ <-];
    rewrite get_collection_valid by done.
  - rewrite list_find_matches_id, Hfind. rewrite decide_False by done.
    fold d'. by rewrite decide_True.
  - rewrite coll_docs_insert, list_find_matches_id.
    assert (Hfind' : list_find (λ d, doc_id d = VOid oid)
                       (<[i := d']> (coll_docs st db coll)) = Some (i, d')).
    { apply list_find_Some. split_and!.
      - apply list_lookup_insert_eq. by eapply lookup_lt_Some.
      - done.
      - intros j y Hj Hlt. rewrite list_lookup_insert_ne in Hj by lia.
        by eapply Hfirst. }
    rewrite Hfind'. cbn [doc_id d']. rewrite decide_False by done.
    rewrite decide_True; [done|].
    unfold d'. cbn [doc_fields]. by rewrite (assoc_L (∪)), (idemp_L (∪)).
Qed.

(** ** The catalog: creating and dropping *)

(** In a database whose name the driver accepts, [delete_collection]
    returns true exactly when the collection existed; afterwards the
    collection is not listed, a document of it is no longer found (the
    collection's name being one the driver makes a handle for), a second
    call returns false, and every other collection is as before.  With a
    database name the driver refuses, [delete_collection] raises
    [InvalidName] and the store is unchanged. *)
Theorem delete_collection_drops (st : store) (db coll : string) :
  (valid_database_name db = true →
   ∃ st',
     delete_collection db coll st =
       (Return (bool_decide (is_Some (st !! (db, coll)))), st') ∧
     (coll ∉ collection_names st' db) ∧
     (valid_collection_name coll = true →
      ∀ id, get_document db coll id st' = (Return None, st')) ∧
     delete_collection db coll st' = (Return false, st') ∧
     (∀ k, k ≠ (db, coll) → st' !! k = st !! k)) ∧
  (valid_database_name db = false →
   delete_collection db coll st = (Raise InvalidName, st)).
Proof.
  split.
  2:{ intros Hdb. unfold delete_collection. run. by rewrite client_getitem_invalid. }
  intros Hdb. exists (delete (db, coll) st).
  assert (Hgone : delete (db, coll) st !! (db, coll) = None) by apply lookup_delete_eq.
  split_and!.
  - destruct (st !! (db, coll)) as [docs|] eqn:Hst.
    + rewrite delete_collection_present by (done || by rewrite Hst).
      by rewrite bool_decide_eq_true_2.
    + rewrite delete_collection_absent, delete_id by done.
      rewrite bool_decide_eq_false_2; [done|]. by intros [? ?].
  - rewrite elem_of_collection_names, Hgone. by intros [? ?].
  - intros Hcoll id. destruct (ObjectId.of_string id) as [oid|] eqn:Hparse.
    + rewrite (get_document_parsed _ _ _ _ oid) by done.
      unfold coll_docs. by rewrite Hgone.
    + unfold get_document. run. rewrite get_collection_valid by done.
      by rewrite Hparse.
  - by apply delete_collection_absent.
  - intros k Hk. by rewrite lookup_delete_ne.
Qed.

(** Creating a collection that is not there, under names the driver
    accepts, and dropping it again gives back the store; both calls return
    true. *)
Theorem create_then_delete_collection (st : store) (db coll : string) :
  valid_names db coll →
  st !! (db, coll) = None →
  (a ← create_collection db coll; b ← delete_collection db coll; mret (a, b)) st =
    (Return (true, true), st).
Proof.
  intros Hvalid Hnone. run. rewrite create_collection_absent by done.
  rewrite delete_collection_present by (apply Hvalid || by rewrite lookup_insert_eq).
  by rewrite delete_insert_id.
Qed.

(** ** Credentials *)

Lemma matches_field_insert (key : string) (v : value) (id : value) (m : dict) :
  key ≠ "_id" → matches key v (Doc id (<[key := v]> m)).
Proof.
  intros Hk. unfold matches, to_dict. cbn.
  rewrite lookup_insert_ne by done. apply lookup_insert_eq.
Qed.

Lemma verify_user_first_match (st : store) (username password : string)
    (i : nat) (d : document) (h : string) :
  list_find (matches "username" (VStr username))
    (coll_docs st SECURE_DB_NAME SECURE_USERS_COLL) = Some (i, d) →
  to_dict d !! "password_hash" = Some (VStr h) →
  verify_user username password st =
    (match check_password_hash h password with
     | Some b => Return b
     | None => Raise ValueError
     end, st).
Proof.
  intros Hfind Hhash. unfold verify_user, find_one. run. rewrite Hfind. cbn.
  destruct (decide _) as [Hempty|_]; [destruct (to_dict_non_empty d Hempty)|].
  unfold subscript. rewrite Hhash. run. cbn.
  by destruct (check_password_hash h password).
Qed.

(** After the bootstrap of an empty credential collection, the configured
    admin (by default [admin] / [admin123]) is verified, provided the hash
    made from the password verifies against it. *)
Theorem bootstrap_then_verify (st : store) (env : gmap string string) (salt : string)
    (gen : ObjectId.t) :
  let username := getenv env "ADMIN_USERNAME" "admin" in
  let password := getenv env "ADMIN_PASSWORD" "admin123" in
  coll_docs st SECURE_DB_NAME SECURE_USERS_COLL = [] →
  check_password_hash (generate_password_hash salt password) password = Some true →
  ∃ st',
    init_auth_collection env salt gen st = (Return (), st') ∧
    verify_user username password st' = (Return true, st').
Proof.
  intros username password Hempty Hcheck.
  rewrite init_auth_collection_empty by done. eexists. split; [reflexivity|].
  erewrite verify_user_first_match.
  - fold password. by rewrite Hcheck.
  - rewrite coll_docs_insert. cbn.
    rewrite decide_True; [reflexivity|]. by apply matches_field_insert.
  - unfold to_dict. cbn. by simplify_map_eq.
Qed.

Lemma add_credential_outcome (st : store) (salt : string) (gen : ObjectId.t)
    (username password role : string) :
  let creds := coll_docs st SECURE_DB_NAME SECURE_USERS_COLL in
  let cred := Doc (VOid gen)
                (<["username" := VStr username]>
                 (<["password_hash" := VStr (generate_password_hash salt password)]>
                  (<["role" := VStr role]> ∅))) in
  (Exists (λ d, doc_id d = VOid gen) creds ∧
   add_credential salt gen username password role st = (Raise DuplicateKeyError, st)) ∨
  (Forall (λ d, doc_id d ≠ VOid gen) creds ∧
   add_credential salt gen username password role st =
     (Return (ObjectId.to_string gen),
      <[(SECURE_DB_NAME, SECURE_USERS_COLL) := (creds ++ [cred])%list]> st)).
Proof.
  intros creds cred. unfold add_credential. cbn zeta. run.
  match goal with |- context [insert_one gen _ _ ?m st] => set (data := m) end.
  assert (Hnoid : data !! "_id" = None) by (subst data; by simplify_map_eq).
  destruct (insert_one_outcome gen st SECURE_DB_NAME SECURE_USERS_COLL data)
    as [[Hex ->]|[Hfresh ->]]; rewrite ?Hnoid in *; cbn [default] in *.
  - apply encodable_credential.
  - done.
  - by left.
  - right. split; [done|]. by rewrite delete_id.
Qed.

(** A credential added under a username no stored credential has is
    verified with its password (the new ObjectId not being in the
    collection, and the hash made from the password verifying against
    it). *)
Theorem add_credential_then_verify (st : store) (salt : string) (gen : ObjectId.t)
    (username password role : string) :
  Forall (λ d, ¬ matches "username" (VStr username) d)
    (coll_docs st SECURE_DB_NAME SECURE_USERS_COLL) →
  Forall (λ d, doc_id d ≠ VOid gen) (coll_docs st SECURE_DB_NAME SECURE_USERS_COLL) →
  check_password_hash (generate_password_hash salt password) password = Some true →
  ∃ st',
    add_credential salt gen username password role st =
      (Return (ObjectId.to_string gen), st') ∧
    verify_user username password st' = (Return true, st').
Proof.
  intros Hnew Hfresh Hcheck.
  destruct (add_credential_outcome st salt gen username password role)
    as [[Hex _]|[_ ->]].
  { apply Exists_exists in Hex as (d & Hd & Heq).
    rewrite Forall_forall in Hfresh. by destruct (Hfresh d Hd). }
  eexists. split; [reflexivity|].
  erewrite verify_user_first_match.
  - by rewrite Hcheck.
  - rewrite coll_docs_insert, list_find_app_r.
    + cbn. rewrite decide_True; [reflexivity|]. by apply matches_field_insert.
    + by apply list_find_None.
  - unfold to_dict. cbn. by simplify_map_eq.
Qed.

(** Usernames are not unique and only the first credential with a
    username is consulted: when a credential with the username exists,
    adding another one under that username (with any password) does not
    change what [verify_user] answers for it. *)
Theorem duplicate_username_is_shadowed (st : store) (salt : string) (gen : ObjectId.t)
    (username new_password role password : string) :
  Exists (matches "username" (VStr username))
    (coll_docs st SECURE_DB_NAME SECURE_USERS_COLL) →
  (verify_user username password
     (add_credential salt gen username new_password role st).2).1 =
  (verify_user username password st).1.
Proof.
  intros Hex.
  destruct (add_credential_outcome st salt gen username new_password role)
    as [[_ ->]|[_ ->]]; [done|]. cbn [snd].
  apply Exists_exists in Hex as (d & Hd & Hm).
  destruct (list_find_elem_of (matches "username" (VStr username)) _ d Hd Hm)
    as [[i d0] Hfind].
  unfold verify_user, find_one. run.
  rewrite coll_docs_insert, (list_find_app_l _ _ _ _ _ Hfind), Hfind. cbn.
  destruct (decide _) as [_|_]; [done|].
  unfold subscript. destruct (to_dict d0 !! "password_hash") as [[o|h|j]|]; run;
    try done.
  cbn. by destruct (check_password_hash h password).
Qed.

Lemma credentials_loop_entries (l : list document) (acc : list dict) (st : store) :
  Forall (λ d, is_Some (to_dict d !! "username")) l →
  credentials_loop (to_dict <$> l) acc st =
    (Return (acc ++ (credential_entry <$> l))%list, st).
Proof.
  intros Hall. revert acc.
  induction Hall as [|d l [u Hu] _ IH]; intros acc; cbn [fmap list_fmap credentials_loop].
  - run. by rewrite app_nil_r.
  - unfold subscript. rewrite to_dict_id, Hu. run.
    rewrite IH, <- app_assoc. unfold credential_entry. by rewrite Hu.
Qed.

Lemma credentials_loop_missing_username (l : list document) (acc : list dict)
    (st : store) :
  Exists (λ d, to_dict d !! "username" = None) l →
  credentials_loop (to_dict <$> l) acc st = (Raise KeyError, st).
Proof.
  intros Hex. revert acc.
  induction Hex as [d l Hd|d l _ IH]; intros acc; cbn [fmap list_fmap credentials_loop];
    unfold subscript; rewrite to_dict_id; run.
  - by rewrite Hd.
  - destruct (to_dict d !! "username"); run; [apply IH|done].
Qed.

(** When every stored credential has a username, [list_credentials]
    returns one entry per credential, in order, each with exactly the keys
    [_id] (the identifier as a string), [username] and [role] (the empty
    string when the credential has none), so never a [password_hash].
    A stored credential without a username makes it raise [KeyError]. *)
Theorem list_credentials_hides_hash (st : store) :
  let creds := coll_docs st SECURE_DB_NAME SECURE_USERS_COLL in
  (Forall (λ d, is_Some (to_dict d !! "username")) creds →
     ∃ users,
       list_credentials st = (Return users, st) ∧
       Forall2 (λ d u,
                  dom u = ({["_id"; "username"; "role"]} : gset string) ∧
                  u !! "password_hash" = None ∧
                  u !! "_id" = Some (VStr (py_str (doc_id d))) ∧
                  u !! "username" = to_dict d !! "username" ∧
                  u !! "role" = Some (default (VStr EmptyString) (to_dict d !! "role")))
               creds users) ∧
  (Exists (λ d, to_dict d !! "username" = None) creds →
     list_credentials st = (Raise KeyError, st)).
Proof.
  intros creds. split.
  - intros Hall. exists (credential_entry <$> creds). split.
    + unfold list_credentials, find_all. run. fold creds.
      by rewrite credentials_loop_entries.
    + apply Forall2_fmap_r, Forall_Forall2_diag.
      eapply Forall_impl; [exact Hall|]. intros d [u Hu].
      unfold credential_entry. rewrite Hu. cbn [default]. split_and!.
      * rewrite !dom_insert_L, dom_empty_L. set_solver.
      * by simplify_map_eq.
      * by simplify_map_eq.
      * by simplify_map_eq.
      * by simplify_map_eq.
  - intros Hex. unfold list_credentials, find_all. run. fold creds.
    by apply credentials_loop_missing_username.
Qed.

Lemma update_one_keeps_field (st : store) (db coll key : string) (v : value)
    (data : dict) (k : string) (db' coll' : string) :
  data !! k = None → k ≠ "_id" →
  (λ d, to_dict d !! k) <$> coll_docs (update_one db coll key v data st).2 db' coll' =
  (λ d, to_dict d !! k) <$> coll_docs st db' coll'.
Proof.
  intros Hk Hne. unfold update_one.
  destruct (decide (encodable data)) as [_|_]; [|done].
  destruct (list_find _ _) as [[i d]|] eqn:Hfind; [|done].
  destruct (decide _) as [_|_]; [done|].
  destruct (decide _) as [_|_]; [done|]. cbn [snd].
  apply list_find_Some in Hfind as (Hi & _ & _).
  destruct (decide ((db, coll) = (db', coll'))) as [[= <- <-]|Hother].
  - rewrite coll_docs_insert, list_fmap_insert.
    apply list_insert_id. rewrite list_lookup_fmap, Hi. cbn. f_equal.
    unfold to_dict. cbn. rewrite !lookup_insert_ne by done.
    rewrite lookup_union_r; [done|]. by rewrite lookup_delete_ne.
  - by rewrite coll_docs_insert_ne.
Qed.

(** [update_credential] with no password, or an empty one, never raises
    and leaves the [password_hash] of every stored document as it was. *)
Theorem update_credential_keeps_hash (st : store) (salt id username role : string)
    (password : option string) :
  truthy password = false →
  (∃ b, (update_credential salt id username password role st).1 = Return b) ∧
  ∀ db coll,
    (λ d, to_dict d !! "password_hash") <$>
      coll_docs (update_credential salt id username password role st).2 db coll =
    (λ d, to_dict d !! "password_hash") <$> coll_docs st db coll.
Proof.
  intros Hfalsy. unfold update_credential. rewrite Hfalsy.
  destruct (ObjectId.of_string id) as [oid|]; [|by eauto]. cbn zeta.
  set (update := <["username" := VStr username]> (<["role" := VStr role]> ∅) : dict).
  assert (Hnoid : update !! "_id" = None) by (subst update; by simplify_map_eq).
  split.
  - run. unfold update_one. rewrite decide_True.
    2:{ subst update. unfold encodable.
        apply map_Forall_insert_2; [done|]. apply map_Forall_insert_2; [done|].
        apply map_Forall_empty. }
    destruct (list_find _ _) as [[i d]|]; [|by eauto].
    rewrite decide_False; [|rewrite Hnoid; by intros [[? [=]] _]].
    destruct (decide _); by eauto.
  - intros db coll. rewrite bind_mret_store.
    apply update_one_keeps_field; [|done]. subst update. by simplify_map_eq.
Qed.

(** ** The routing layer *)

(** A request without a user in the session is turned away by every
    view (a redirect to the login page, or status 401 from the JSON
    endpoints) and the store is not touched. *)
Theorem unauthenticated_requests_change_nothing (st : store)
    (session : gmap string string) :
  session !! "username" = None →
  (∀ db coll, delete_collection_view session db coll st =
                (Return (Redirect "login" None), st)) ∧
  (∀ db, delete_database_view session db st = (Return (Redirect "login" None), st)) ∧
  (∀ db coll id, delete_doc_view session db coll id st =
                   (Return (Redirect "login" None), st)) ∧
  (∀ salt gen username password role,
     add_cred_view session salt gen username password role st =
       (Return (Redirect "login" None), st)) ∧
  (∀ id, delete_cred_view session id st = (Return (Redirect "login" None), st)) ∧
  (∀ gen db coll payload,
     api_insert_document session gen db coll payload st =
       (Return (Jsonify 401 "error" "Unauthorized"), st)) ∧
  (∀ db coll id payload,
     api_update_document session db coll id payload st =
       (Return (Jsonify 401 "error" "Unauthorized"), st)) ∧
  (∀ db coll id,
     api_delete_document session db coll id st =
       (Return (Jsonify 401 "error" "Unauthorized"), st)).
Proof.
  intros Hanon.
  unfold delete_collection_view, delete_database_view, delete_doc_view, add_cred_view,
    delete_cred_view, api_insert_document, api_update_document, api_delete_document,
    login_required, api_auth_required.
  split_and!; intros; by rewrite decide_True.
Qed.

(** [api_insert_document], for a logged-in user and a request body that
    is a JSON object, never raises.  It answers 400 "Invalid JSON", with
    the store unchanged, when the driver refuses the database or collection
    name, when the encoder refuses the payload, when the server refuses the
    identifier, or when the identifier is already in the collection; in
    every other case it answers 201 with the new identifier as a string,
    the document being stored at the end of the collection. *)
Theorem api_insert_document_responds (st : store) (session : gmap string string)
    (gen : ObjectId.t) (db coll : string) (payload : dict) :
  is_Some (session !! "username") →
  let id := default (VOid gen) (payload !! "_id") in
  (¬ valid_names db coll ∨ ¬ encodable payload ∨ id_allowed id = false ∨
   Exists (λ d, doc_id d = id) (coll_docs st db coll) →
     api_insert_document session gen db coll payload st =
       (Return (Jsonify 400 "error" "Invalid JSON"), st)) ∧
  (valid_names db coll → encodable payload → id_allowed id = true →
   Forall (λ d, doc_id d ≠ id) (coll_docs st db coll) →
     api_insert_document session gen db coll payload st =
       (Return (Jsonify 201 "inserted_id" (py_str id)),
        <[(db, coll) :=
            (coll_docs st db coll ++ [Doc id (delete "_id" payload)])%list]> st)).
Proof.
  intros [u Hu] id.
  unfold api_insert_document, api_auth_required, insert_document.
  rewrite decide_False by congruence. run.
  destruct (get_collection_cases st db coll) as [[Hvalid ->]|[Hvalid ->]].
  2:{ split; [done|]. by intros ?. }
  destruct (decide (encodable payload)) as [Hok|Hbad].
  2:{ rewrite (proj1 (insert_one_refused gen st db coll payload) Hbad).
      split; [done|]. by intros _ ?. }
  destruct (id_allowed id) eqn:Hid.
  2:{ rewrite (proj2 (insert_one_refused gen st db coll payload) Hok Hid).
      split; [done|]. by intros _ _ ?. }
  destruct (insert_one_outcome gen st db coll payload Hok Hid) as [[Hex ->]|[Hall ->]];
    fold id in Hex || fold id in Hall; split; try done.
  - intros _ _ _ Hall. apply Exists_exists in Hex as (d & Hd & Heq).
    rewrite Forall_forall in Hall. by destruct (Hall d Hd).
  - intros [?|[?|[?|Hex]]]; try done.
    apply Exists_exists in Hex as (d & Hd & Heq).
    rewrite Forall_forall in Hall. by destruct (Hall d Hd).
Qed.

(** [delete_database_view] never drops a protected database: for the
    secure database and for [admin], [local] and [config] it answers with
    an error notice and the store is unchanged. *)
Theorem delete_database_view_protects (st : store) (session : gmap string string)
    (db : string) :
  db = SECURE_DB_NAME ∨ db ∈ ["admin"; "local"; "config"] →
  (delete_database_view session db st).2 = st ∧
  (is_Some (session !! "username") →
     ∃ notice, delete_database_view session db st =
                 (Return (Redirect "dashboard" (Some (notice, "error"))), st)).
Proof.
  intros Hprot. unfold delete_database_view, login_required.
  destruct (decide (session !! "username" = None)) as [Hanon|Hlogged].
  { split; [done|]. intros [u Hu]. congruence. }
  destruct (decide (db = SECURE_DB_NAME)) as [->|Hne].
  { split; [done|]. intros _. by eexists. }
  destruct Hprot as [?|Hin]; [done|].
  unfold delete_database. run. rewrite decide_True by done. run.
  split; [done|]. intros _. by eexists.
Qed.

(** [add_cred_view] stores nothing when the username or the password is
    missing or empty. *)
Theorem add_cred_view_requires_both (st : store) (session : gmap string string)
    (salt : string) (gen : ObjectId.t) (username password role : option string) :
  truthy username = false ∨ truthy password = false →
  (add_cred_view session salt gen username password role st).2 = st ∧
  (is_Some (session !! "username") →
     add_cred_view session salt gen username password role st =
       (Return (Redirect "credentials_page"
                  (Some ("Username and password required", "error"))), st)).
Proof.
  intros Hmissing. unfold add_cred_view, login_required.
  destruct (decide (session !! "username" = None)) as [Hanon|Hlogged].
  { split; [done|]. intros [u Hu]. congruence. }
  assert (negb (truthy username) || negb (truthy password) = true) as ->.
  { destruct Hmissing as [->| ->]; [done|]. apply orb_true_r. }
  done.
Qed.

(** ** Further compositions *)

(** Inserting a document without [_id], which the encoder takes, into a
    collection whose names the driver accepts, and deleting it again by
    the returned id gives back the documents of the collection (the new
    ObjectId, of 12 bytes, not being in the collection): the delete
    returns true. *)
Theorem insert_then_delete (gen : ObjectId.t) (st : store) (db coll : string)
    (data : dict) :
  valid_names db coll →
  encodable data →
  ObjectId.generated gen →
  data !! "_id" = None →
  Forall (λ d, doc_id d ≠ VOid gen) (coll_docs st db coll) →
  ∃ X st1 st2,
    insert_document gen db coll data st = (Return X, st1) ∧
    delete_document db coll X st1 = (Return true, st2) ∧
    coll_docs st2 db coll = coll_docs st db coll ∧
    (∀ k, k ≠ (db, coll) → st2 !! k = st !! k).
Proof.
  intros Hvalid Hok Hgen Hnoid Hfresh.
  destruct (insert_one_outcome gen st db coll data) as [[Hex _]|[_ Hins]];
    rewrite ?Hnoid in *; cbn [default] in *; [done|done| |].
  { apply Exists_exists in Hex as (d & Hd & Heq).
    rewrite Forall_forall in Hfresh. by destruct (Hfresh d Hd). }
  set (new := Doc (VOid gen) (delete "_id" data)) in *.
  set (docs := coll_docs st db coll) in *.
  assert (Hfind : list_find (λ d, doc_id d = VOid gen) (docs ++ [new]) =
                  Some (length docs, new)).
  { rewrite list_find_app_r by (by apply list_find_None).
    cbn. rewrite decide_True by done. cbn. by rewrite ?Nat.add_0_r. }
  eexists _, _, _. unfold insert_document, delete_document. run.
  rewrite !get_collection_valid by done.
  rewrite Hins. cbn [py_str]. split; [reflexivity|].
  rewrite ObjectId_of_string_to_string by done. run.
  rewrite (delete_one_id_found _ db coll (VOid gen) (length docs) new)
    by (by rewrite coll_docs_insert).
  split; [reflexivity|]. rewrite !coll_docs_insert. split.
  - rewrite delete_take_drop, take_app_length.
    rewrite drop_ge by (rewrite length_app; cbn; lia). by rewrite app_nil_r.
  - intros k Hk. by rewrite !lookup_insert_ne.
Qed.

(** What [verify_user] answers is decided by the first stored credential
    with the username: without one it is false; with a string
    [password_hash] it is the verification of the password against it,
    which raises [ValueError] for a hash whose method is not known;
    without a [password_hash] the call raises [KeyError], and with one that
    is not a string, [AttributeError]. *)
Theorem verify_user_decided_by_first_match (st : store) (username password : string) :
  let creds := coll_docs st SECURE_DB_NAME SECURE_USERS_COLL in
  (list_find (matches "username" (VStr username)) creds = None →
     verify_user username password st = (Return false, st)) ∧
  (∀ i d, list_find (matches "username" (VStr username)) creds = Some (i, d) →
     verify_user username password st =
       (match to_dict d !! "password_hash" with
        | Some (VStr h) =>
            match check_password_hash h password with
            | Some b => Return b
            | None => Raise ValueError
            end
        | Some _ => Raise AttributeError
        | None => Raise KeyError
        end, st)).
Proof.
  intros creds. split.
  - intros Hnone. unfold verify_user, find_one. run. fold creds. by rewrite Hnone.
  - intros i d Hfind. unfold verify_user, find_one. run. fold creds. rewrite Hfind. cbn.
    destruct (decide _) as [Hempty|_]; [destruct (to_dict_non_empty d Hempty)|].
    unfold subscript. destruct (to_dict d !! "password_hash") as [[o|h|j]|]; run;
      try done.
    cbn. by destruct (check_password_hash h password).
Qed.

Lemma unique_ids_empty : unique_ids (∅ : store).
Proof. intros db coll. unfold coll_docs. rewrite lookup_empty. apply NoDup_nil_2. Qed.

Lemma unique_ids_singleton (db coll : string) (docs : list (@document json)) :
  NoDup (doc_id <$> docs) → unique_ids (<[(db, coll) := docs]> (∅ : store)).
Proof. intros Hdocs. by apply unique_ids_insert; [apply unique_ids_empty|]. Qed.

End Properties.

(** * The operations on concrete stores *)

Lemma example_names_valid : valid_names "shop" "items".
Proof. split; reflexivity. Qed.

Lemma example_payloads_encodable :
  encodable example_insert ∧ encodable example_update ∧
  encodable (delete "_id" example_update) ∧ ¬ encodable example_overflow.
Proof.
  split_and!.
  - unfold example_insert, encodable. apply map_Forall_insert_2; [by split|].
    apply map_Forall_empty.
  - unfold example_update, encodable. repeat (apply map_Forall_insert_2; [by split|]).
    apply map_Forall_empty.
  - unfold example_update, encodable. rewrite delete_insert_eq.
    rewrite delete_id by done. apply map_Forall_insert_2; [by split|].
    apply map_Forall_empty.
  - unfold example_overflow, encodable. intros Hall.
    destruct (Hall "a" (VJson (SInt (2 ^ 64)))) as [_ Hv]; [apply lookup_insert_eq|].
    vm_compute in Hv. discriminate Hv.
Qed.

(** C1, at a store holding one credential: the core, called directly,
    drops [secure_auth.users] and returns true. *)
Lemma delete_collection_drops_secure_users :
  coll_docs example_credentials SECURE_DB_NAME "users" = [example_admin] ∧
  delete_collection SECURE_DB_NAME "users" example_credentials = (Return true, ∅).
Proof. split; reflexivity. Qed.

(** C8, on the empty cluster: the first call creates [shop.items] and
    with it the database, the second one refuses. *)
Lemma create_collection_twice_example :
  let st0 : gmap (string * string) (list (@document scalar)) := ∅ in
  let st1 : gmap (string * string) (list (@document scalar)) :=
    <[("shop", "items") := []]> ∅ in
  create_collection "shop" "items" st0 = (Return true, st1) ∧
  create_collection "shop" "items" st1 = (Return false, st1) ∧
  collection_names st1 "shop" = ["items"] ∧
  database_names st0 = [] ∧ database_names st1 = ["shop"].
Proof. split_and!; reflexivity. Qed.

(** C8, at the database name [my db] on the empty cluster: the driver
    refuses the name, so both calls raise [InvalidName]; neither returns
    true or false and no collection exists afterwards. *)
Lemma create_collection_raises_on_invalid_name :
  let st0 : gmap (string * string) (list (@document scalar)) := ∅ in
  create_collection "my db" "items" st0 = (Raise InvalidName, st0) ∧
  (a ← create_collection "my db" "items";
   b ← create_collection "my db" "items";
   mret (a, b)) st0 ≠ (Return (true, false), st0) ∧
  collection_names st0 "my db" = [].
Proof.
  cbn zeta. split_and!; [reflexivity| |reflexivity].
  assert (Hrun : match ((a ← create_collection "my db" "items";
                         b ← create_collection "my db" "items";
                         mret (a, b))
                          (∅ : gmap (string * string) (list (@document scalar)))).1 with
                 | Raise InvalidName => True
                 | _ => False
                 end) by (vm_compute; exact I).
  intros Heq. rewrite Heq in Hrun. exact Hrun.
Qed.

Lemma create_collection_twice_witness :
  let st0 : gmap (string * string) (list (@document scalar)) := ∅ in
  valid_names "shop" "items" ∧
  (∃ st1,
     create_collection "shop" "items" st0 = (Return true, st1) ∧
     create_collection "shop" "items" st1 = (Return false, st1) ∧
     length (filter (λ c, c = "items") (collection_names st1 "shop")) = 1%nat ∧
     "shop" ∈ database_names st1) ∧
  create_collection "shop" "a$b" st0 = (Raise InvalidName, st0).
Proof.
  cbn zeta. split; [exact example_names_valid|]. split.
  - destruct (proj1 (create_collection_twice
                       (∅ : gmap (string * string) (list (@document scalar)))
                       "shop" "items") example_names_valid)
      as (st1 & Hfirst & Hsecond & Hone & Hdb & _).
    exists st1. split_and!; [exact Hfirst|exact Hsecond|exact Hone|exact Hdb].
  - apply (proj2 (proj2 (create_collection_twice
                           (∅ : gmap (string * string) (list (@document scalar)))
                           "shop" "a$b"))); reflexivity.
Defined.

Lemma delete_secure_users_guarded_by_view_witness :
  delete_collection_view (<["username" := "admin"]> ∅) SECURE_DB_NAME "users"
    example_credentials =
    (Return (Redirect "view_collections"
               (Some ("Cannot delete 'users' collection from secure_auth", "error"))),
     example_credentials) ∧
  delete_collection SECURE_DB_NAME "users" example_credentials =
    (Return true, delete (SECURE_DB_NAME, "users") example_credentials) ∧
  delete_collection SECURE_DB_NAME "users" example_shop = (Return false, example_shop).
Proof.
  destruct (delete_secure_users_guarded_by_view example_credentials
              (<["username" := "admin"]> ∅)) as (_ & Hview & _ & Hpresent).
  destruct (delete_secure_users_guarded_by_view example_shop ∅)
    as (_ & _ & Habsent & _).
  split_and!.
  - apply Hview. exists "admin". reflexivity.
  - apply Hpresent. exists [example_admin]. reflexivity.
  - apply Habsent. reflexivity.
Defined.

(** C2, at [{"_id": ObjectId(...01), "x": 1}] and the payload
    [{"_id": "should-be-ignored", "x": 2}]: the core neither strips nor
    ignores the [_id]; the store's refusal surfaces and [x] stays 1, where
    the payload without the [_id] would have set [x] to 2. *)
Lemma update_document_does_not_strip_id :
  update_document "shop" "items" example_oid_string example_update example_single =
    (Raise WriteError, example_single) ∧
  update_document "shop" "items" example_oid_string (delete "_id" example_update)
    example_single =
    (Return true,
     <[("shop", "items") :=
         [Doc (VOid (ObjectId.example x01)) (<["x" := VJson (SInt 2)]> ∅)]]> ∅).
Proof. split; reflexivity. Qed.

Lemma update_keeps_identifier_witness :
  update_document "shop" "items" example_oid_string example_update example_single =
    (Raise WriteError, example_single) ∧
  api_update_document (<["username" := "admin"]> ∅) "shop" "items" example_oid_string
    example_update example_single =
    (Return (Jsonify 200 "status" "updated"),
     <[("shop", "items") :=
         [Doc (VOid (ObjectId.example x01)) (<["x" := VJson (SInt 2)]> ∅)]]> ∅).
Proof.
  split.
  - destruct (update_keeps_identifier example_single "shop" "items" example_oid_string
                example_update) as (_ & Hrefused & _).
    apply (proj2 (Hrefused (ObjectId.example x01) 0%nat
                    (Doc (VOid (ObjectId.example x01)) (<["x" := VJson (SInt 1)]> ∅))
                    (VStr "should-be-ignored")
                    ltac:(reflexivity) ltac:(reflexivity)
                    ltac:(reflexivity) ltac:(discriminate)));
      [exact example_names_valid | apply example_payloads_encodable].
  - change example_update
      with (<["_id" := VStr "should-be-ignored"]>
              (<["x" := VJson (SInt 2)]> ∅ : gmap string (@value scalar))).
    rewrite (proj1 (proj2 (proj2 (update_keeps_identifier example_single "shop" "items"
               example_oid_string (<["x" := VJson (SInt 2)]> ∅))))).
    reflexivity.
Defined.

(** C3, at the name [my db], which is none of the protected ones: the
    driver refuses a database name with a space in it, so
    [delete_database] raises [InvalidName]; it neither drops anything nor
    returns true. *)
Lemma delete_database_raises_on_invalid_name :
  ("my db" ∉ ["admin"; "local"; "config"]) ∧ "my db" ≠ SECURE_DB_NAME ∧
  delete_database "my db" example_shop = (Raise InvalidName, example_shop) ∧
  delete_database "my db" example_shop ≠ (Return true, example_shop).
Proof.
  assert (Hrun : delete_database "my db" example_shop = (Raise InvalidName, example_shop))
    by (reflexivity).
  split_and!.
  - intros Hin.
    repeat (apply elem_of_cons in Hin as [Heq|Hin]; [discriminate Heq|]).
    by apply elem_of_nil in Hin.
  - discriminate.
  - exact Hrun.
  - rewrite Hrun. discriminate.
Qed.

Lemma delete_database_protected_or_dropped_witness :
  delete_database "admin" example_shop = (Return false, example_shop) ∧
  delete_database SECURE_DB_NAME example_credentials = (Return false, example_credentials) ∧
  (∃ st', delete_database "shop" example_shop = (Return true, st') ∧
          "shop" ∉ database_names st') ∧
  delete_database "a.b" example_shop = (Raise InvalidName, example_shop).
Proof.
  assert (Hother : ∀ db : string, db = "shop" ∨ db = "a.b" →
            (db ∉ ["admin"; "local"; "config"]) ∧ db ≠ SECURE_DB_NAME).
  { intros db Hdb. split.
    - intros Hin.
      repeat (apply elem_of_cons in Hin as [->|Hin];
              [destruct Hdb as [Heq|Heq]; discriminate Heq|]).
      by apply elem_of_nil in Hin.
    - intros ->. destruct Hdb as [Heq|Heq]; discriminate Heq. }
  split_and!.
  - apply (proj1 (delete_database_protected_or_dropped example_shop "admin")).
    left. apply list_elem_of_here.
  - apply (proj1 (delete_database_protected_or_dropped example_credentials
                    SECURE_DB_NAME)).
    right. reflexivity.
  - destruct (proj1 (proj2 (delete_database_protected_or_dropped example_shop "shop")))
      as (st' & Hrun & _ & Hgone & _).
    + apply Hother. by left.
    + apply Hother. by left.
    + reflexivity.
    + exists st'. split; [exact Hrun|exact Hgone].
  - apply (proj2 (proj2 (delete_database_protected_or_dropped example_shop "a.b"))).
    + apply Hother. by right.
    + apply Hother. by right.
    + reflexivity.
Defined.

Lemma paginate_documents_page_witness :
  1 ≤ 3 ∧ 1 ≤ 10 ∧
  ∃ r, paginate_documents "shop" "items" 3 10 example_shop = (Return r, example_shop) ∧
       total r = 25 ∧ total_pages r = 3 ∧ length (documents r) = 5%nat.
Proof.
  split; [lia|]. split; [lia|].
  destruct (paginate_documents_page example_shop "shop" "items" 3 10)
    as (r & Hrun & _ & _ & Htotal & _ & _ & _ & _ & _ & _ & H25);
    [exact example_names_valid|lia|lia|].
  assert (Ht : total r = 25) by (rewrite Htotal; reflexivity).
  destruct (H25 Ht eq_refl) as (Hpages & _ & Hthree & _).
  exists r. split_and!; [exact Hrun|exact Ht|exact Hpages|exact (Hthree eq_refl)].
Defined.

(** C5, at the id [not-an-id], which does not parse, and the collection
    name [a$b], which the driver refuses: [get_document],
    [update_document] and [delete_document] make the collection handle
    before they look at the id, so [InvalidName] is surfaced to the
    caller instead of "not found". *)
Lemma malformed_id_raises_on_invalid_name :
  ObjectId.of_string "not-an-id" = None ∧
  get_document "shop" "a$b" "not-an-id" example_shop = (Raise InvalidName, example_shop) ∧
  update_document "shop" "a$b" "not-an-id" example_insert example_shop =
    (Raise InvalidName, example_shop) ∧
  delete_document "shop" "a$b" "not-an-id" example_shop =
    (Raise InvalidName, example_shop).
Proof. split_and!; reflexivity. Qed.

Lemma malformed_id_is_not_found_witness :
  ObjectId.of_string "not-an-id" = None ∧
  get_document "shop" "items" "not-an-id" example_shop = (Return None, example_shop) ∧
  delete_document "shop" "items" "not-an-id" example_shop = (Return false, example_shop) ∧
  delete_document "my db" "items" "not-an-id" example_shop =
    (Raise InvalidName, example_shop) ∧
  delete_credential "not-an-id" example_shop = (Return false, example_shop).
Proof.
  split; [reflexivity|].
  destruct (malformed_id_is_not_found (H := example_werkzeug) "not-an-id" example_shop
              "shop" "items" example_insert "s1" "admin" "admin" None)
    as (Hvalid & _ & _ & Hcred); [reflexivity|].
  destruct (Hvalid example_names_valid) as (Hget & _ & Hdel).
  destruct (malformed_id_is_not_found (H := example_werkzeug) "not-an-id" example_shop
              "my db" "items" example_insert "s1" "admin" "admin" None)
    as (_ & Hinvalid & _); [reflexivity|].
  destruct Hinvalid as (_ & _ & Hraise).
  { intros [Hdb _]. vm_compute in Hdb. discriminate Hdb. }
  split_and!; [exact Hget|exact Hdel|exact Hraise|exact Hcred].
Defined.

Lemma init_auth_collection_bootstrap_witness :
  ∃ st',
    init_auth_collection (H := example_werkzeug) ∅ "s1" (ObjectId.example x01) ∅ =
      (Return (), st') ∧
    coll_docs st' SECURE_DB_NAME SECURE_USERS_COLL = [example_admin] ∧
    init_auth_collection (H := example_werkzeug) ∅ "s2" (ObjectId.example x02)
      example_credentials = (Return (), example_credentials).
Proof.
  destruct (proj1 (init_auth_collection_bootstrap (H := example_werkzeug) (json := scalar)
                     ∅ ∅ "s1" (ObjectId.example x01)))
    as (st' & Hrun & Hdocs & _); [reflexivity|].
  exists st'. split_and!; [exact Hrun|exact Hdocs|].
  apply (proj1 (proj2 (init_auth_collection_bootstrap (H := example_werkzeug)
                         example_credentials ∅ "s2" (ObjectId.example x02)))).
  vm_compute. discriminate.
Defined.

Lemma verify_user_uniform_failure_witness :
  verify_user (H := example_werkzeug) "nouser" "anything" example_credentials =
    (Return false, example_credentials) ∧
  verify_user (H := example_werkzeug) "admin" "wrongpass" example_credentials =
    (Return false, example_credentials).
Proof.
  destruct (verify_user_uniform_failure (H := example_werkzeug) example_credentials
              "nouser" "anything" "admin" "wrongpass") as (Hunknown & Hwrong & _).
  split.
  - apply Hunknown.
    apply Forall_cons. split; [vm_compute; discriminate|apply Forall_nil_2].
  - apply Hwrong.
    exists 0%nat, example_admin, (example_hash "s1" "admin123").
    split_and!; reflexivity.
Defined.

(** C9, at the payload [{"_id": "abc", "a": 1}] and the empty store:
    [insert_document] keeps the [_id] of the payload and returns ["abc"],
    which [get_document] does not parse, so the document is not read
    back.  The payload reaches the core with its [_id] through
    [api_insert_document], where [api_update_document] removes it. *)
Lemma insert_with_own_id_not_read_back :
  let st1 : gmap (string * string) (list (@document scalar)) :=
    <[("shop", "items") := [Doc (VStr "abc") (<["a" := VJson (SInt 1)]> ∅)]]> ∅ in
  insert_document (ObjectId.example x01) "shop" "items" example_insert_with_id ∅ =
    (Return "abc", st1) ∧
  get_document "shop" "items" "abc" st1 = (Return None, st1) ∧
  api_insert_document example_session (ObjectId.example x01) "shop" "items"
    example_insert_with_id ∅ = (Return (Jsonify 201 "inserted_id" "abc"), st1) ∧
  api_update_document example_session "shop" "items" example_oid_string
    example_insert_with_id example_single =
  api_update_document example_session "shop" "items" example_oid_string
    (delete "_id" example_insert_with_id) example_single.
Proof. split_and!; reflexivity. Qed.

Lemma example_shop_fresh :
  Forall (λ d : @document scalar, doc_id d ≠ VOid (ObjectId.example xff))
    (coll_docs example_shop "shop" "items").
Proof.
  apply Forall_forall. intros d Hd Heq.
  change (coll_docs example_shop "shop" "items") with example_items in Hd.
  unfold example_items in Hd. apply list_elem_of_fmap in Hd as (b & -> & Hb).
  injection Heq as Heq.
  repeat (apply elem_of_cons in Hb as [->|Hb]; [discriminate Heq|]).
  by apply elem_of_nil in Hb.
Qed.

Lemma insert_then_get_witness :
  (∃ X st',
     insert_document (ObjectId.example xff) "shop" "items" example_insert example_shop =
       (Return X, st') ∧
     X = "0000000000000000000000ff" ∧
     get_document "shop" "items" X st' =
       (Return (Some (<["_id" := VStr X]> example_insert)), st')) ∧
  (∃ X st',
     insert_document (ObjectId.example x00) "shop" "items"
       (<["_id" := VOid (ObjectId.example xff)]> example_insert) example_shop =
       (Return X, st') ∧
     get_document "shop" "items" X st' =
       (Return (Some (<["_id" := VStr X]> example_insert)), st')).
Proof.
  split.
  - destruct (insert_then_get (ObjectId.example xff) (ObjectId.example xff) example_shop
                "shop" "items" example_insert example_names_valid
                (proj1 example_payloads_encodable) eq_refl
                (ObjectId_example_generated xff) example_shop_fresh)
      as (X & st' & Hins & HX & Hget).
    exists X, st'. split_and!; [exact Hins|exact HX|exact Hget].
  - destruct (insert_then_get (ObjectId.example x00) (ObjectId.example xff) example_shop
                "shop" "items" (<["_id" := VOid (ObjectId.example xff)]> example_insert)
                example_names_valid)
      as (X & st' & Hins & _ & Hget).
    + unfold encodable. apply map_Forall_insert_2; [by split|].
      apply example_payloads_encodable.
    + by rewrite lookup_insert_eq.
    + apply ObjectId_example_generated.
    + exact example_shop_fresh.
    + exists X, st'. split; [exact Hins|].
      rewrite Hget. by rewrite insert_insert_eq.
Defined.

Lemma identifiers_returned_as_strings_witness :
  get_document "shop" "items" example_oid_string example_single =
    (Return (Some (<["_id" := VStr example_oid_string]> (<["x" := VJson (SInt 1)]> ∅))),
     example_single) ∧
  insert_document (ObjectId.example x02) "shop" "items" example_insert example_single =
    (Return example_other_oid_string,
     <[("shop", "items") :=
         [Doc (VOid (ObjectId.example x01)) (<["x" := VJson (SInt 1)]> ∅);
          Doc (VOid (ObjectId.example x02)) example_insert]]> ∅) ∧
  insert_document (ObjectId.example x02) "shop" "items" example_overflow example_single =
    (Raise EncodeError, example_single) ∧
  get_document "shop" "a$b" example_oid_string example_single =
    (Raise InvalidName, example_single).
Proof.
  destruct (identifiers_returned_as_strings example_single "shop" "items")
    as (Hvalid & _).
  destruct (Hvalid example_names_valid) as (Hget & _ & Hins).
  destruct (Hins (ObjectId.example x02) example_insert) as (_ & _ & _ & Hstored & _).
  destruct (Hins (ObjectId.example x02) example_overflow) as (Hrefused & _).
  destruct (identifiers_returned_as_strings example_single "shop" "a$b")
    as (_ & Hinvalid).
  split_and!.
  - rewrite Hget. reflexivity.
  - rewrite Hstored.
    + reflexivity.
    + apply example_payloads_encodable.
    + reflexivity.
    + apply Forall_cons. split; [discriminate|apply Forall_nil_2].
  - apply Hrefused. apply example_payloads_encodable.
  - apply Hinvalid. intros [_ Hcoll]. vm_compute in Hcoll. discriminate Hcoll.
Defined.

(** * The further properties on concrete stores *)

Lemma example_single_docs :
  coll_docs example_single "shop" "items" =
    [Doc (VOid (ObjectId.example x01)) (<["x" := VJson (SInt 1)]> ∅)].
Proof. unfold example_single. apply coll_docs_insert. Qed.

Lemma example_credentials_docs :
  coll_docs example_credentials SECURE_DB_NAME SECURE_USERS_COLL = [example_admin].
Proof. unfold example_credentials. apply coll_docs_insert. Qed.

Lemma example_oid_parses :
  ObjectId.of_string example_oid_string = Some (ObjectId.example x01) ∧
  ObjectId.of_string example_other_oid_string = Some (ObjectId.example x02).
Proof. split; reflexivity. Qed.

Lemma example_set_x :
  let data : gmap string (@value scalar) := <["x" := VJson (SInt 2)]> ∅ in
  encodable data ∧ plain_keys data ∧ data !! "_id" = None.
Proof.
  cbn zeta. split_and!.
  - unfold encodable. apply map_Forall_insert_2; [by split|]. apply map_Forall_empty.
  - unfold plain_keys. apply map_Forall_insert_2; [reflexivity|]. apply map_Forall_empty.
  - rewrite lookup_insert_ne by discriminate. apply lookup_empty.
Qed.

Lemma list_databases_hides_reserved_witness :
  ∃ names, list_databases example_credentials = (Return names, example_credentials) ∧
           SECURE_DB_NAME ∈ names.
Proof.
  destruct (list_databases_hides_reserved example_credentials)
    as (names & Hrun & _ & _ & Hsecure).
  exists names. split; [exact Hrun|]. apply Hsecure.
  unfold example_credentials. rewrite lookup_insert_eq. eexists. reflexivity.
Defined.

Lemma paginate_documents_out_of_domain_witness :
  (0 - 1) * 10 < 0 ∧
  paginate_documents "shop" "items" 0 10 example_shop = (Raise ValueError, example_shop).
Proof.
  split; [lia|].
  apply (proj1 (paginate_documents_out_of_domain example_shop "shop" "items" 0 10
                  example_names_valid)). lia.
Defined.

Lemma pages_cover_collection_witness :
  1 ≤ 10 ∧
  ∃ r, paginate_documents "shop" "items" 1 10 example_shop = (Return r, example_shop) ∧
       concat ((λ p, page_documents example_shop "shop" "items" (Z.of_nat p) 10)
                 <$> seq 1 (Z.to_nat (total_pages r))) =
         public_dict <$> coll_docs example_shop "shop" "items".
Proof.
  split; [lia|].
  apply (pages_cover_collection example_shop "shop" "items" 10 example_names_valid). lia.
Defined.

Lemma page_empty_iff_beyond_last_witness :
  1 ≤ 4 ∧ 1 ≤ 10 ∧ coll_docs example_shop "shop" "items" ≠ [] ∧
  ∃ r, paginate_documents "shop" "items" 4 10 example_shop = (Return r, example_shop) ∧
       (documents r = [] ↔ total_pages r < 4).
Proof.
  assert (Hne : coll_docs example_shop "shop" "items" ≠ []).
  { unfold example_shop. rewrite coll_docs_insert. discriminate. }
  split; [lia|]. split; [lia|]. split; [exact Hne|].
  apply (page_empty_iff_beyond_last example_shop "shop" "items" 4 10 example_names_valid);
    [lia|lia|exact Hne].
Defined.

Lemma document_operations_frame_witness :
  ("shop", "orders") ≠ ("shop", "items") ∧
  (delete_document "shop" "items" example_oid_string example_single).2
    !! ("shop", "orders") = example_single !! ("shop", "orders").
Proof.
  split; [discriminate|].
  destruct (document_operations_frame example_single "shop" "items") as (_ & _ & Hdel).
  apply (Hdel example_oid_string). discriminate.
Defined.

Lemma unique_ids_preserved_witness :
  unique_ids example_single ∧
  unique_ids (insert_document (ObjectId.example x02) "shop" "items" example_insert
                example_single).2.
Proof.
  assert (Huniq : unique_ids example_single).
  { apply unique_ids_singleton. cbn. apply NoDup_singleton. }
  split; [exact Huniq|].
  destruct (unique_ids_preserved (H := example_werkzeug) example_single Huniq)
    as (Hins & _).
  apply Hins.
Defined.

Lemma delete_document_twice_witness :
  ObjectId.of_string example_oid_string = Some (ObjectId.example x01) ∧
  VOid (ObjectId.example x01) ∈ doc_id <$> coll_docs example_single "shop" "items" ∧
  NoDup (doc_id <$> coll_docs example_single "shop" "items") ∧
  ∃ st',
    delete_document "shop" "items" example_oid_string example_single = (Return true, st') ∧
    delete_document "shop" "items" example_oid_string st' = (Return false, st').
Proof.
  assert (Hin : VOid (ObjectId.example x01) ∈
                doc_id <$> coll_docs example_single "shop" "items").
  { rewrite example_single_docs. cbn. apply list_elem_of_here. }
  assert (Hnd : NoDup (doc_id <$> coll_docs example_single "shop" "items")).
  { rewrite example_single_docs. cbn. apply NoDup_singleton. }
  split; [apply example_oid_parses|]. split; [exact Hin|]. split; [exact Hnd|].
  destruct (delete_document_twice example_single "shop" "items" example_oid_string
              (ObjectId.example x01) example_names_valid (proj1 example_oid_parses) Hin Hnd)
    as (st' & Hfirst & _ & _ & _ & Hsecond).
  exists st'. split; [exact Hfirst|exact Hsecond].
Defined.

Lemma unknown_id_is_not_found_witness :
  ObjectId.of_string example_other_oid_string = Some (ObjectId.example x02) ∧
  (VOid (ObjectId.example x02) ∉ doc_id <$> coll_docs example_single "shop" "items") ∧
  get_document "shop" "items" example_other_oid_string example_single =
    (Return None, example_single) ∧
  update_document "shop" "items" example_other_oid_string (<["x" := VJson (SInt 2)]> ∅)
    example_single = (Return false, example_single) ∧
  delete_document "shop" "items" example_other_oid_string example_single =
    (Return false, example_single).
Proof.
  assert (Hnin : VOid (ObjectId.example x02) ∉
                 doc_id <$> coll_docs example_single "shop" "items").
  { rewrite example_single_docs. cbn. intros Hin.
    apply list_elem_of_singleton in Hin. discriminate Hin. }
  split; [apply example_oid_parses|]. split; [exact Hnin|].
  destruct (unknown_id_is_not_found example_single "shop" "items"
              example_other_oid_string (ObjectId.example x02) (<["x" := VJson (SInt 2)]> ∅)
              example_names_valid (proj2 example_oid_parses) Hnin) as (Hget & Hupd & Hdel).
  split; [exact Hget|]. split; [|exact Hdel].
  apply Hupd. apply example_set_x.
Defined.

Lemma example_single_find :
  list_find (λ d : @document scalar, doc_id d = VOid (ObjectId.example x01))
    (coll_docs example_single "shop" "items") =
  Some (0%nat, Doc (VOid (ObjectId.example x01)) (<["x" := VJson (SInt 1)]> ∅)).
Proof. rewrite example_single_docs. cbn. by rewrite decide_True. Qed.

Lemma update_document_merges_witness :
  ObjectId.of_string example_oid_string = Some (ObjectId.example x01) ∧
  (<["x" := VJson (SInt 2)]> ∅ : gmap string (@value scalar)) !! "_id" = None ∧
  ∃ b st',
    update_document "shop" "items" example_oid_string (<["x" := VJson (SInt 2)]> ∅)
      example_single = (Return b, st') ∧
    get_document "shop" "items" example_oid_string st' =
      (Return (Some (<["_id" := VStr (ObjectId.to_string (ObjectId.example x01))]>
                       (<["x" := VJson (SInt 2)]> ∅ ∪ <["x" := VJson (SInt 1)]> ∅))),
       st').
Proof.
  destruct example_set_x as (Hok & Hplain & Hnoid).
  split; [apply example_oid_parses|]. split; [exact Hnoid|].
  destruct (update_document_merges example_single "shop" "items" example_oid_string
              (ObjectId.example x01) (<["x" := VJson (SInt 2)]> ∅) 0%nat
              (Doc (VOid (ObjectId.example x01)) (<["x" := VJson (SInt 1)]> ∅))
              example_names_valid Hok Hplain
              (proj1 example_oid_parses) example_single_find Hnoid)
    as (b & st' & Hrun & _ & _ & Hget).
  exists b, st'. split; [exact Hrun|exact Hget].
Defined.

Lemma update_document_twice_witness :
  let st' : gmap (string * string) (list (@document scalar)) :=
    <[("shop", "items") :=
        [Doc (VOid (ObjectId.example x01)) (<["x" := VJson (SInt 2)]> ∅)]]> ∅ in
  update_document "shop" "items" example_oid_string (<["x" := VJson (SInt 2)]> ∅)
    example_single = (Return true, st') ∧
  update_document "shop" "items" example_oid_string (<["x" := VJson (SInt 2)]> ∅) st' =
    (Return false, st').
Proof.
  intros st'.
  assert (Hfirst : update_document "shop" "items" example_oid_string
                     (<["x" := VJson (SInt 2)]> ∅) example_single = (Return true, st'))
    by (reflexivity).
  split; [exact Hfirst|].
  exact (update_document_twice example_single st' "shop" "items" example_oid_string
           (<["x" := VJson (SInt 2)]> ∅) true Hfirst).
Defined.

Lemma delete_collection_drops_witness :
  (∃ st', delete_collection "shop" "items" example_single = (Return true, st') ∧
          "items" ∉ collection_names st' "shop") ∧
  delete_collection "my db" "items" example_single = (Raise InvalidName, example_single).
Proof.
  split.
  - destruct (proj1 (delete_collection_drops example_single "shop" "items")
                (proj1 example_names_valid))
      as (st' & Hrun & Hgone & _).
    rewrite bool_decide_eq_true_2 in Hrun.
    + exists st'. split; [exact Hrun|exact Hgone].
    + unfold example_single. rewrite lookup_insert_eq. eexists. reflexivity.
  - apply (proj2 (delete_collection_drops example_single "my db" "items")).
    reflexivity.
Defined.

Lemma create_then_delete_collection_witness :
  valid_names "shop" "orders" ∧
  example_single !! ("shop", "orders") = None ∧
  (a ← create_collection "shop" "orders";
   b ← delete_collection "shop" "orders";
   mret (a, b)) example_single = (Return (true, true), example_single).
Proof.
  assert (Hnone : example_single !! ("shop", "orders") = None).
  { unfold example_single. rewrite lookup_insert_ne by discriminate. apply lookup_empty. }
  assert (Hvalid : valid_names "shop" "orders") by (split; reflexivity).
  split; [exact Hvalid|]. split; [exact Hnone|].
  exact (create_then_delete_collection example_single "shop" "orders" Hvalid Hnone).
Defined.

Lemma bootstrap_then_verify_witness :
  ∃ st',
    init_auth_collection (H := example_werkzeug) (json := scalar) ∅ "s1"
      (ObjectId.example x01) ∅ = (Return (), st') ∧
    verify_user (H := example_werkzeug) "admin" "admin123" st' = (Return true, st').
Proof.
  assert (Hempty : coll_docs (∅ : gmap (string * string) (list (@document scalar)))
                     SECURE_DB_NAME SECURE_USERS_COLL = []).
  { unfold coll_docs. by rewrite lookup_empty. }
  assert (Hcheck : check_password_hash (Werkzeug := example_werkzeug)
                     (generate_password_hash (Werkzeug := example_werkzeug) "s1" "admin123")
                     "admin123" = Some true) by (reflexivity).
  exact (bootstrap_then_verify (H := example_werkzeug) (json := scalar) ∅ ∅ "s1"
           (ObjectId.example x01) Hempty Hcheck).
Defined.

Lemma example_no_bob :
  Forall (λ d : @document scalar, ¬ matches "username" (VStr "bob") d)
    (coll_docs example_credentials SECURE_DB_NAME SECURE_USERS_COLL).
Proof.
  rewrite example_credentials_docs. apply Forall_cons. split; [|apply Forall_nil_2].
  vm_compute. discriminate.
Qed.

Lemma example_fresh_oid (docs : list (@document scalar)) :
  docs = [example_admin] →
  Forall (λ d, doc_id d ≠ VOid (ObjectId.example x02)) docs.
Proof. intros ->. apply Forall_cons. split; [discriminate|apply Forall_nil_2]. Qed.

Lemma add_credential_then_verify_witness :
  check_password_hash (Werkzeug := example_werkzeug)
    (generate_password_hash (Werkzeug := example_werkzeug) "s2" "secret") "secret" =
    Some true ∧
  ∃ st',
    add_credential (H := example_werkzeug) "s2" (ObjectId.example x02) "bob" "secret" "user"
      example_credentials = (Return (ObjectId.to_string (ObjectId.example x02)), st') ∧
    verify_user (H := example_werkzeug) "bob" "secret" st' = (Return true, st').
Proof.
  assert (Hcheck : check_password_hash (Werkzeug := example_werkzeug)
                     (generate_password_hash (Werkzeug := example_werkzeug) "s2" "secret")
                     "secret" = Some true) by (reflexivity).
  split; [exact Hcheck|].
  exact (add_credential_then_verify (H := example_werkzeug) example_credentials "s2"
           (ObjectId.example x02) "bob" "secret" "user" example_no_bob
           (example_fresh_oid _ example_credentials_docs) Hcheck).
Defined.

Lemma example_has_admin :
  Exists (matches (json := scalar) "username" (VStr "admin"))
    (coll_docs example_credentials SECURE_DB_NAME SECURE_USERS_COLL).
Proof.
  rewrite example_credentials_docs. apply Exists_cons_hd. reflexivity.
Qed.

Lemma duplicate_username_is_shadowed_witness :
  (verify_user (H := example_werkzeug) "admin" "other"
     (add_credential (H := example_werkzeug) "s2" (ObjectId.example x02) "admin" "other"
        "user" example_credentials).2).1 =
  (verify_user (H := example_werkzeug) "admin" "other" example_credentials).1.
Proof.
  exact (duplicate_username_is_shadowed (H := example_werkzeug) example_credentials "s2"
           (ObjectId.example x02) "admin" "other" "user" "other" example_has_admin).
Defined.

Lemma list_credentials_hides_hash_witness :
  ∃ users, list_credentials example_credentials = (Return users, example_credentials) ∧
           length users = 1%nat ∧
           Forall (λ u, u !! "password_hash" = None) users.
Proof.
  destruct (proj1 (list_credentials_hides_hash example_credentials))
    as (users & Hrun & Hall).
  - rewrite example_credentials_docs. apply Forall_cons. split; [|apply Forall_nil_2].
    eexists. reflexivity.
  - exists users. split; [exact Hrun|]. split.
    + apply Forall2_length in Hall. rewrite example_credentials_docs in Hall.
      symmetry. exact Hall.
    + eapply Forall2_Forall_r; [exact Hall|].
      apply Forall_forall. intros d _ u Hu. apply Hu.
Defined.

Lemma update_credential_keeps_hash_witness :
  truthy None = false ∧
  (λ d, to_dict d !! "password_hash") <$>
    coll_docs (update_credential (H := example_werkzeug) "s2" example_oid_string "root"
                 None "admin" example_credentials).2 SECURE_DB_NAME SECURE_USERS_COLL =
  (λ d, to_dict d !! "password_hash") <$>
    coll_docs example_credentials SECURE_DB_NAME SECURE_USERS_COLL.
Proof.
  split; [reflexivity|].
  apply (update_credential_keeps_hash (H := example_werkzeug) example_credentials "s2"
           example_oid_string "root" "admin" None eq_refl).
Defined.

Lemma unauthenticated_requests_change_nothing_witness :
  (∅ : gmap string string) !! "username" = None ∧
  delete_database_view ∅ "shop" example_shop = (Return (Redirect "login" None), example_shop) ∧
  api_delete_document ∅ "shop" "items" example_oid_string example_shop =
    (Return (Jsonify 401 "error" "Unauthorized"), example_shop).
Proof.
  assert (Hanon : (∅ : gmap string string) !! "username" = None) by apply lookup_empty.
  split; [exact Hanon|].
  destruct (unauthenticated_requests_change_nothing (H := example_werkzeug)
              example_shop ∅ Hanon) as (_ & Hdb & _ & _ & _ & _ & _ & Hdel).
  split; [apply Hdb|apply Hdel].
Defined.

Lemma example_session_logged_in : is_Some (example_session !! "username").
Proof. unfold example_session. rewrite lookup_insert_eq. eexists. reflexivity. Qed.

Lemma api_insert_document_responds_witness :
  is_Some (example_session !! "username") ∧
  api_insert_document example_session (ObjectId.example x02) "shop" "items"
    (<["_id" := VOid (ObjectId.example x01)]> ∅) example_single =
    (Return (Jsonify 400 "error" "Invalid JSON"), example_single) ∧
  api_insert_document example_session (ObjectId.example x02) "shop" "items"
    example_overflow example_single =
    (Return (Jsonify 400 "error" "Invalid JSON"), example_single) ∧
  api_insert_document example_session (ObjectId.example x02) "shop" "items"
    example_insert example_single =
    (Return (Jsonify 201 "inserted_id" example_other_oid_string),
     <[("shop", "items") :=
         [Doc (VOid (ObjectId.example x01)) (<["x" := VJson (SInt 1)]> ∅);
          Doc (VOid (ObjectId.example x02)) example_insert]]> ∅).
Proof.
  split; [exact example_session_logged_in|]. split_and!.
  - apply (proj1 (api_insert_document_responds example_single example_session
                    (ObjectId.example x02) "shop" "items"
                    (<["_id" := VOid (ObjectId.example x01)]> ∅)
                    example_session_logged_in)).
    right. right. right.
    rewrite example_single_docs, lookup_insert_eq. apply Exists_cons_hd. reflexivity.
  - apply (proj1 (api_insert_document_responds example_single example_session
                    (ObjectId.example x02) "shop" "items" example_overflow
                    example_session_logged_in)).
    right. left. apply example_payloads_encodable.
  - rewrite (proj2 (api_insert_document_responds example_single example_session
                      (ObjectId.example x02) "shop" "items" example_insert
                      example_session_logged_in)).
    + reflexivity.
    + exact example_names_valid.
    + apply example_payloads_encodable.
    + reflexivity.
    + rewrite example_single_docs.
      apply Forall_cons. split; [discriminate|apply Forall_nil_2].
Defined.

Lemma delete_database_view_protects_witness :
  "admin" ∈ ["admin"; "local"; "config"] ∧
  (delete_database_view example_session "admin" example_shop).2 = example_shop.
Proof.
  assert (Hin : "admin" ∈ ["admin"; "local"; "config"]) by apply list_elem_of_here.
  split; [exact Hin|].
  apply (delete_database_view_protects example_shop example_session "admin").
  right. exact Hin.
Defined.

Lemma add_cred_view_requires_both_witness :
  truthy (Some EmptyString) = false ∧
  add_cred_view (H := example_werkzeug) example_session "s2" (ObjectId.example x02)
    (Some EmptyString) (Some "secret") None example_credentials =
    (Return (Redirect "credentials_page"
               (Some ("Username and password required", "error"))),
     example_credentials).
Proof.
  split; [reflexivity|].
  apply (add_cred_view_requires_both (H := example_werkzeug) example_credentials
           example_session "s2" (ObjectId.example x02) (Some EmptyString) (Some "secret")
           None (or_introl eq_refl)).
  exact example_session_logged_in.
Defined.

Lemma insert_then_delete_witness :
  ObjectId.generated (ObjectId.example x02) ∧
  example_insert !! "_id" = None ∧
  Forall (λ d, doc_id d ≠ VOid (ObjectId.example x02))
    (coll_docs example_single "shop" "items") ∧
  ∃ X st1 st2,
    insert_document (ObjectId.example x02) "shop" "items" example_insert example_single =
      (Return X, st1) ∧
    delete_document "shop" "items" X st1 = (Return true, st2) ∧
    coll_docs st2 "shop" "items" = coll_docs example_single "shop" "items".
Proof.
  assert (Hnoid : example_insert !! "_id" = None).
  { unfold example_insert. rewrite lookup_insert_ne by discriminate. apply lookup_empty. }
  assert (Hfresh : Forall (λ d : @document scalar, doc_id d ≠ VOid (ObjectId.example x02))
                     (coll_docs example_single "shop" "items")).
  { rewrite example_single_docs. apply Forall_cons. split; [discriminate|apply Forall_nil_2]. }
  split; [apply ObjectId_example_generated|]. split; [exact Hnoid|]. split; [exact Hfresh|].
  destruct (insert_then_delete (ObjectId.example x02) example_single "shop" "items"
              example_insert example_names_valid (proj1 example_payloads_encodable)
              (ObjectId_example_generated x02) Hnoid Hfresh)
    as (X & st1 & st2 & Hins & Hdel & Hdocs & _).
  exists X, st1, st2. split; [exact Hins|]. split; [exact Hdel|exact Hdocs].
Defined.

Lemma verify_user_decided_by_first_match_witness :
  verify_user (H := example_werkzeug) "bob" "secret" example_credentials =
    (Return false, example_credentials) ∧
  verify_user (H := example_werkzeug) "old" "secret" example_legacy_credentials =
    (Raise ValueError, example_legacy_credentials).
Proof.
  split.
  - apply (proj1 (verify_user_decided_by_first_match (H := example_werkzeug)
                    example_credentials "bob" "secret")).
    apply list_find_None. exact example_no_bob.
  - rewrite (proj2 (verify_user_decided_by_first_match (H := example_werkzeug)
                      example_legacy_credentials "old" "secret") 0%nat
               (Doc (VOid (ObjectId.example x01))
                  (<["username" := VStr "old"]>
                   (<["password_hash" := VStr "crypt$s1$secret"]> ∅)))).
    + reflexivity.
    + reflexivity.
Defined.
